(** * generate_excel: access-point placement workbook generator

    A shallow embedding of [src/generate_excel.py] and the properties of
    its grouping, numbering and formatting steps.

    Conventions of the embedding.
    - Python [str] values are [string]s read as ASCII text: case
      conversion, letters, digits and white space are those of the ASCII
      range, a character above 127 is left alone by every operation.
    - Python [int] is [Z]; Python [float] is the primitive binary64
      [float], formatted through its exact value ([Prim2SF]).
    - An uncaught exception is the [Err] case of [result].
    - The record dictionaries produced by [json.load] are records whose
      [model] and [floorplan_name] are text when present (the documented
      input format) and whose [coordinate_xyz] is an arbitrary JSON value.
    - [openpyxl] is not part of the repository: the title it gives to (or
      the exception it raises for) a new sheet is a parameter of [main].
    - Row building is also given on raw records ([RawRecord]), JSON
      objects with a value of any type under every key; it agrees with
      the typed one where the model and the floor name are text. *)

From Stdlib Require Import ZArith NArith List String Ascii Bool Lia.
From Stdlib Require Import DecimalString DecimalN DecimalPos.
From Stdlib Require Import Floats.
From Stdlib Require Import Permutation.
Import ListNotations.

Set Warnings "-register-all".

Open Scope string_scope.
Open Scope Z_scope.

(** ** Exceptions *)

Inductive exn : Type :=
| AttributeError
| TypeError
| ValueError
| OverflowError
| JSONDecodeError
| LibraryError (name : string).

Inductive result (A : Type) : Type :=
| Ok (a : A)
| Err (e : exn).
Arguments Ok {A} a.
Arguments Err {A} e.

Definition bind {A B} (r : result A) (k : A -> result B) : result B :=
  match r with
  | Ok a => k a
  | Err e => Err e
  end.

Notation "x <- r ;; k" := (bind r (fun x => k))
  (at level 61, r at next level, right associativity).
Notation "' p <- r ;; k" := (bind r (fun x => let p := x in k))
  (at level 61, p pattern, r at next level, right associativity).

(** ** Python string methods (ASCII) *)

Module Str.

Definition code (c : ascii) : N := N_of_ascii c.

Definition is_lower (c : ascii) : bool := ((97 <=? code c) && (code c <=? 122))%N.
Definition is_upper (c : ascii) : bool := ((65 <=? code c) && (code c <=? 90))%N.
Definition is_alpha (c : ascii) : bool := is_lower c || is_upper c.
Definition is_digit (c : ascii) : bool := ((48 <=? code c) && (code c <=? 57))%N.

(** [str.isspace] on the ASCII range: tab, line feed, vertical tab, form
    feed, carriage return, the four separators 28..31 and the space. *)
Definition is_space (c : ascii) : bool :=
  (((9 <=? code c) && (code c <=? 13)) || ((28 <=? code c) && (code c <=? 32)))%N.

Definition upper_char (c : ascii) : ascii :=
  if is_lower c then ascii_of_N (code c - 32) else c.
Definition lower_char (c : ascii) : ascii :=
  if is_upper c then ascii_of_N (code c + 32) else c.

Fixpoint map (f : ascii -> ascii) (s : string) : string :=
  match s with
  | EmptyString => EmptyString
  | String c s' => String (f c) (map f s')
  end.

Definition upper : string -> string := map upper_char.
Definition lower : string -> string := map lower_char.

Fixpoint startswith (p s : string) : bool :=
  match p, s with
  | EmptyString, _ => true
  | String a p', String b s' => Ascii.eqb a b && startswith p' s'
  | String _ _, EmptyString => false
  end.

(** [sub in s] *)
Fixpoint contains (sub s : string) : bool :=
  startswith sub s ||
  match s with
  | EmptyString => false
  | String _ s' => contains sub s'
  end.

(** [s.replace(old, new)] for a non-empty [old]: occurrences are found
    left to right and do not overlap; [skip] counts the characters of a
    replaced occurrence still to be dropped. *)
Fixpoint replace_from (old new s : string) (skip : nat) : string :=
  match s with
  | EmptyString => EmptyString
  | String c s' =>
      match skip with
      | S k => replace_from old new s' k
      | O =>
          if startswith old s
          then new ++ replace_from old new s' (String.length old - 1)
          else String c (replace_from old new s' 0)
      end
  end.

Definition replace (old new s : string) : string := replace_from old new s 0.

Fixpoint lstrip (s : string) : string :=
  match s with
  | String c s' => if is_space c then lstrip s' else s
  | EmptyString => EmptyString
  end.

Fixpoint rstrip (s : string) : string :=
  match s with
  | EmptyString => EmptyString
  | String c s' =>
      match rstrip s' with
      | EmptyString => if is_space c then EmptyString else String c EmptyString
      | r => String c r
      end
  end.

Definition strip (s : string) : string := rstrip (lstrip s).

(** [s.title()]: a letter that follows a letter is lowered, any other
    letter is raised. *)
Fixpoint title_from (prev_cased : bool) (s : string) : string :=
  match s with
  | EmptyString => EmptyString
  | String c s' =>
      String (if prev_cased then lower_char c else upper_char c)
             (title_from (is_alpha c) s')
  end.

Definition title (s : string) : string := title_from false s.

(** [s[:n]] *)
Fixpoint take (n : nat) (s : string) : string :=
  match n, s with
  | S k, String c s' => String c (take k s')
  | _, _ => EmptyString
  end.

Fixpoint repeat (c : ascii) (n : nat) : string :=
  match n with
  | O => EmptyString
  | S k => String c (repeat c k)
  end.

End Str.

(** ** Integer formatting *)

(** [str(n)] for a natural number. *)
Definition decimal (n : N) : string := NilEmpty.string_of_uint (N.to_uint n).

(** [format(z, "03d")]: sign-aware zero padding to a minimum width of 3. *)
Definition zfill (width : nat) (s : string) : string :=
  Str.repeat "0" (width - String.length s) ++ s.

Definition format_03d (z : Z) : string :=
  if z <? 0 then "-" ++ zfill 2 (decimal (Z.abs_N z))
  else zfill 3 (decimal (Z.abs_N z)).

(** Line 91: [f"AP-{placement_counter:03d}"]. *)
Definition placement_number (placement_counter : Z) : string :=
  "AP-" ++ format_03d placement_counter.

(** ** Model normalisation (lines 94-96) *)

Definition normalise_model (model_raw : string) : string :=
  if Str.startswith "c" (Str.lower model_raw) && negb (Str.contains "-" model_raw)
  then Str.replace "C" "C-" (Str.upper model_raw)
  else Str.upper model_raw.

(** ** The floor pattern (line 42)

    A small backtracking matcher for the regular expressions the program
    uses.  Quantifiers are greedy and give back characters on failure, as
    in Python's [re]; a literal is compared without regard to case
    ([re.I]).  The state carries the text still to be read and the text
    captured by group 1. *)

Module Re.

Inductive regex : Type :=
| Class (p : ascii -> bool)        (* one character of a class *)
| PlusClass (p : ascii -> bool)    (* [c+] for a class [c] *)
| Seq (r1 r2 : regex)
| Alt (r1 r2 : regex)
| Opt (r : regex)                  (* [r?] *)
| Group1 (r : regex)               (* the capturing group *)
| Eps                              (* the empty expression *)
| Eos.                             (* [$] without re.M *)

Definition state : Type := (string * option string)%type.

Definition orelse {A} (a b : option A) : option A :=
  match a with
  | Some x => Some x
  | None => b
  end.

(** The rest of a [c+] once its first character is read: as many more as
    possible, then one fewer, and so on. *)
Fixpoint plus_loop {A} (p : ascii -> bool) (s : string) (k : string -> option A)
  : option A :=
  match s with
  | String c s' => if p c then orelse (plus_loop p s' k) (k s) else k s
  | EmptyString => k s
  end.

(** What was read between two positions of the same text. *)
Definition consumed (before after : string) : string :=
  Str.take (String.length before - String.length after) before.

Fixpoint exec {A} (r : regex) (st : state) (k : state -> option A) : option A :=
  match r with
  | Class p =>
      match fst st with
      | String c s' => if p c then k (s', snd st) else None
      | EmptyString => None
      end
  | PlusClass p =>
      match fst st with
      | String c s' =>
          if p c then plus_loop p s' (fun rest => k (rest, snd st)) else None
      | EmptyString => None
      end
  | Seq r1 r2 => exec r1 st (fun st1 => exec r2 st1 k)
  | Alt r1 r2 => orelse (exec r1 st k) (exec r2 st k)
  | Opt r => orelse (exec r st k) (k st)
  | Group1 r => exec r st (fun st1 => k (fst st1, Some (consumed (fst st) (fst st1))))
  | Eps => k st
  | Eos =>
      match fst st with
      | EmptyString => k st
      | String c EmptyString => if Ascii.eqb c "010" then k st else None
      | _ => None
      end
  end.

(** A literal character under [re.I]. *)
Definition lit (c : ascii) : regex :=
  Class (fun x => Ascii.eqb (Str.lower_char x) (Str.lower_char c)).

Fixpoint word (w : string) : regex :=
  match w with
  | EmptyString => Eps
  | String c w' => Seq (lit c) (word w')
  end.

(** [pattern.match(s)]: anchored at the start of [s]; the result is
    [group(1)] of the match. *)
Definition match_group1 (r : regex) (s : string) : option string :=
  exec r (s, None) (fun st => Some (match snd st with Some g => g | None => "" end)).

End Re.

(** [^(\d+)(?:st|nd|rd|th)?\s+Floor$] with [re.I]. *)
Definition FLOOR_RE : Re.regex :=
  Re.Seq (Re.Group1 (Re.PlusClass Str.is_digit))
 (Re.Seq (Re.Opt (Re.Alt (Re.word "st") (Re.Alt (Re.word "nd")
                 (Re.Alt (Re.word "rd") (Re.word "th")))))
 (Re.Seq (Re.PlusClass Str.is_space)
 (Re.Seq (Re.word "Floor") Re.Eos))).

(** Lines 45-50. *)
Definition normalise_sheet_name (name : string) : string :=
  match Re.match_group1 FLOOR_RE (Str.strip name) with
  | Some group1 => "Floor " ++ group1
  | None => Str.take 31 (Str.title name)
  end.

(** ** JSON values and float formatting *)

Inductive json : Type :=
| JNull
| JBool (b : bool)
| JInt (z : Z)
| JFloat (f : float)
| JString (s : string)
| JArray (l : list json)
| JObject (d : list (string * json)).

(** [bool(v)] *)
Definition truthy (v : json) : bool :=
  match v with
  | JNull => false
  | JBool b => b
  | JInt z => negb (z =? 0)
  | JFloat f => negb (PrimFloat.eqb f 0%float)
  | JString s => negb (String.eqb s "")
  | JArray l => match l with [] => false | _ => true end
  | JObject d => match d with [] => false | _ => true end
  end.

Fixpoint lookup {V} (key : string) (d : list (string * V)) : option V :=
  match d with
  | [] => None
  | (k, v) :: d' => if String.eqb k key then Some v else lookup key d'
  end.

(** [v.get(key)]: only a dictionary has the method; a missing key gives
    [None]. *)
Definition json_get (v : json) (key : string) : result json :=
  match v with
  | JObject d => Ok (match lookup key d with Some x => x | None => JNull end)
  | _ => Err AttributeError
  end.

(** Rounding of the non-negative rational [num / den] to the nearest
    integer, ties to even. *)
Definition round_half_even (num den : Z) : Z :=
  let q := num / den in
  match (2 * (num mod den)) ?= den with
  | Lt => q
  | Gt => q + 1
  | Eq => if Z.even q then q else q + 1
  end.

(** [format(x, ".1f")] for a binary64 value: the exact value
    [m * 2^e] rounded to one decimal, ties to even. *)
Definition format_1f_float (x : spec_float) : string :=
  match x with
  | S754_zero s => (if s then "-" else "") ++ "0.0"
  | S754_infinity s => (if s then "-" else "") ++ "inf"
  | S754_nan => "nan"
  | S754_finite s m e =>
      let tenths :=
        if 0 <=? e then Z.pos m * 2 ^ e * 10
        else round_half_even (Z.pos m * 10) (2 ^ (- e)) in
      (if s then "-" else "")
        ++ decimal (Z.to_N (tenths / 10)) ++ "." ++ decimal (Z.to_N (tenths mod 10))
  end.

(** [float(z)] for an [int]: the nearest binary64, ties to even;
    [OverflowError] beyond the largest one. *)
Definition float_of_int (z : Z) : result spec_float :=
  match binary_normalize 53 1024 z 0 false with
  | S754_infinity _ => Err OverflowError
  | x => Ok x
  end.

(** [format(v, ".1f")]: numbers (and booleans, which are [int]s) are
    formatted, [None], lists and dictionaries raise [TypeError], a string
    raises [ValueError]. *)
Definition format_1f (v : json) : result string :=
  match v with
  | JFloat f => Ok (format_1f_float (Prim2SF f))
  | JInt z => x <- float_of_int z ;; Ok (format_1f_float x)
  | JBool b => x <- float_of_int (if b then 1 else 0) ;; Ok (format_1f_float x)
  | JString _ => Err ValueError
  | JNull | JArray _ | JObject _ => Err TypeError
  end.

(** ** Input records *)

Record AccessPoint : Type := mkAP {
  model : option string;
  floorplan_name : option string;
  coordinate_xyz : option json
}.

Record Document : Type := mkDoc {
  accesspoints : option (list AccessPoint)
}.

(** [d.get(key, default)] on a field that may be absent. *)
Definition get_default {A} (field : option A) (default : A) : A :=
  match field with
  | Some v => v
  | None => default
  end.

(** Line 72. *)
Definition floor_of (ap : AccessPoint) : string :=
  get_default (floorplan_name ap) "Unknown Floor".

(** ** Grouping (lines 70-73)

    [by_floor] is a [defaultdict(list)]: a dictionary that keeps its keys
    in insertion order. *)

Definition floor_dict : Type := list (string * list AccessPoint).

(** [by_floor[floor].append(ap)] *)
Fixpoint dict_append (by_floor : floor_dict) (floor : string) (ap : AccessPoint)
  : floor_dict :=
  match by_floor with
  | [] => [(floor, [ap])]
  | (k, aps) :: rest =>
      if String.eqb k floor then (k, (aps ++ [ap])%list) :: rest
      else (k, aps) :: dict_append rest floor ap
  end.

Definition group_by_floor (aps : list AccessPoint) : floor_dict :=
  fold_left (fun by_floor ap => dict_append by_floor (floor_of ap) ap) aps [].

(** ** Rows (lines 90-118) *)

Definition HEADER : list string :=
  [ "Placement Number"; "AP Model"; "Antenna Type"; "Antenna Vendor";
    "Antenna Model"; "Mount Type"; "Mounting Bracket"; "Mounting Adapter";
    "AP in Enclosure?"; "Enclosure Model"; "Antenna in Enclosure?";
    "Direction *"; "Downtilt *"; "Notes" ].

(** Lines 99-100. *)
Definition coord_note (ap : AccessPoint) : result string :=
  let got := get_default (coordinate_xyz ap) JNull in
  let coord := if truthy got then got else JObject [] in
  if truthy coord then
    x <- json_get coord "x" ;;
    xs <- format_1f x ;;
    y <- json_get coord "y" ;;
    ys <- format_1f y ;;
    Ok ("x=" ++ xs ++ ", y=" ++ ys)
  else Ok "".

Definition build_row (placement_counter : Z) (ap : AccessPoint)
  : result (list string) :=
  let placement_number := placement_number placement_counter in
  let model_raw := get_default (model ap) "" in
  let model := normalise_model model_raw in
  coord_note <- coord_note ap ;;
  Ok [ placement_number; model; "Internal Omni"; "N/A"; "N/A"; "Hard Ceiling";
       "<insert mounting bracket model>"; "<insert mounting adapter model>";
       "No"; "N/A"; "N/A"; "N/A"; "N/A"; coord_note ].

(** The inner loop: the rows appended to one sheet and the counter after
    them. *)
Fixpoint build_rows (placement_counter : Z) (aps_on_floor : list AccessPoint)
  : result (list (list string) * Z) :=
  match aps_on_floor with
  | [] => Ok ([], placement_counter)
  | ap :: rest =>
      row <- build_row placement_counter ap ;;
      '(rows, counter) <- build_rows (placement_counter + 1) rest ;;
      Ok (row :: rows, counter)
  end.

(** ** The workbook (lines 75-123) *)

Record Worksheet : Type := mkSheet {
  title : string;
  rows : list (list string);
  header_bold : bool;
  freeze_panes : option string
}.

Definition Workbook : Type := list Worksheet.

Inductive status : Type :=
| Completed
| SysExit (code : Z)
| Uncaught (e : exn).

Record Outcome : Type := mkOutcome {
  stdout : list string;
  exit_status : status;
  saved : option (string * Workbook)
}.

Section Program.

(** [openpyxl]'s answer to [wb.create_sheet(name)] in a workbook whose
    sheets have the given titles: the title of the new sheet, which is
    added after the others, or the exception raised. *)
Variable sheet_title : list string -> string -> result string.

(** [json.load] on the file at a path. *)
Variable load_json : string -> result Document.

Definition create_sheet (wb : Workbook) (name : string) : result Worksheet :=
  t <- sheet_title (List.map title wb) name ;;
  Ok (mkSheet t [] false None).

(** The outer loop (lines 80-121). *)
Fixpoint fill_sheets (wb : Workbook) (placement_counter : Z) (by_floor : floor_dict)
  : result (Workbook * Z) :=
  match by_floor with
  | [] => Ok (wb, placement_counter)
  | (floor_name, aps_on_floor) :: rest =>
      let sheet_name := normalise_sheet_name floor_name in
      ws <- create_sheet wb sheet_name ;;
      '(rows, counter) <- build_rows placement_counter aps_on_floor ;;
      fill_sheets (wb ++ [mkSheet (title ws) (HEADER :: rows) true (Some "A2")])%list
                  counter rest
  end.

Definition build_workbook (aps : list AccessPoint) : result Workbook :=
  '(wb, _) <- fill_sheets [] 1 (group_by_floor aps) ;;
  Ok wb.

Definition main (argv : list string) : Outcome :=
  match argv with
  | [_; json_path; out_path] =>
      match load_json json_path with
      | Err e => mkOutcome [] (Uncaught e) None
      | Ok data =>
          let aps := get_default (accesspoints data) [] in
          match aps with
          | [] => mkOutcome ["No access points found in JSON – aborting."]
                            (SysExit 1) None
          | _ =>
              match build_workbook aps with
              | Err e => mkOutcome [] (Uncaught e) None
              | Ok wb => mkOutcome ["Excel file written to " ++ out_path]
                                   Completed (Some (out_path, wb))
              end
          end
      end
  | _ => mkOutcome ["Usage: python -m src.generate_excel <input.json> <output.xlsx>"]
                   (SysExit 1) None
  end.

End Program.

(** [openpyxl] as the program expects it on well-behaved names: every
    requested title is given as asked. *)
Definition plain_titles (_ : list string) (name : string) : result string := Ok name.

(** ** Notions used to state the properties *)

(** The number a string of decimal digits denotes, if it is one. *)
Definition parse_decimal (s : string) : option N :=
  option_map N.of_uint (NilEmpty.uint_of_string s).

(** The counter values [c, c+1, ..., c+n-1]. *)
Fixpoint count_from (c : Z) (n : nat) : list Z :=
  match n with
  | O => []
  | S k => c :: count_from (c + 1) k
  end.

(** The data rows of a sheet (all but the header) and the first column of
    the data rows of a workbook, sheet after sheet. *)
Definition data_rows (ws : Worksheet) : list (list string) := tl (rows ws).

Definition placement_column (wb : Workbook) : list string :=
  flat_map (fun ws => List.map (hd "") (data_rows ws)) wb.

(** The distinct elements of a list, each at its first occurrence. *)
Fixpoint first_seen (l : list string) : list string :=
  match l with
  | [] => []
  | x :: l' => x :: filter (fun y => negb (String.eqb y x)) (first_seen l')
  end.

Definition on_floor (floor : string) (ap : AccessPoint) : bool :=
  String.eqb (floor_of ap) floor.

(** The number of records of a grouping. *)
Definition total (by_floor : floor_dict) : nat :=
  list_sum (List.map (fun g => List.length (snd g)) by_floor).

(** What the outer loop leaves in the workbook for one group: the header,
    one row per record of the group in order, the header in bold and
    frozen, under the title the library gave for the normalised name. *)
Definition sheet_for (sheet_title : list string -> string -> result string)
           (ws : Worksheet) (g : string * list AccessPoint) : Prop :=
  rows ws = HEADER :: data_rows ws /\
  Forall2 (fun row ap => exists n, build_row n ap = Ok row) (data_rows ws) (snd g) /\
  header_bold ws = true /\
  freeze_panes ws = Some "A2" /\
  exists titles, sheet_title titles (normalise_sheet_name (fst g)) = Ok (title ws).

(** The grouping the specification describes: one group per distinct
    floor name, in the order the names are first seen, each holding the
    records of that floor in input order. *)
Definition grouped (aps : list AccessPoint) : floor_dict :=
  List.map (fun floor => (floor, filter (on_floor floor) aps))
           (first_seen (List.map floor_of aps)).

(** ** The meaning of a regular expression

    [matches r s rest c c'] : [r] matches the text [s] when [rest]
    follows it, taking the content of group 1 from [c] to [c']. *)

Fixpoint all_chars (p : ascii -> bool) (s : string) : bool :=
  match s with
  | EmptyString => true
  | String c s' => p c && all_chars p s'
  end.

Inductive matches : Re.regex -> string -> string -> option string -> option string -> Prop :=
| M_Class p ch rest c :
    p ch = true -> matches (Re.Class p) (String ch "") rest c c
| M_Plus p s rest c :
    s <> "" -> all_chars p s = true -> matches (Re.PlusClass p) s rest c c
| M_Seq r1 r2 s1 s2 rest c0 c1 c2 :
    matches r1 s1 (s2 ++ rest) c0 c1 -> matches r2 s2 rest c1 c2 ->
    matches (Re.Seq r1 r2) (s1 ++ s2) rest c0 c2
| M_AltL r1 r2 s rest c c' :
    matches r1 s rest c c' -> matches (Re.Alt r1 r2) s rest c c'
| M_AltR r1 r2 s rest c c' :
    matches r2 s rest c c' -> matches (Re.Alt r1 r2) s rest c c'
| M_OptSome r s rest c c' :
    matches r s rest c c' -> matches (Re.Opt r) s rest c c'
| M_OptNone r rest c :
    matches (Re.Opt r) "" rest c c
| M_Group1 r s rest c c' :
    matches r s rest c c' -> matches (Re.Group1 r) s rest c (Some s)
| M_Eps rest c :
    matches Re.Eps "" rest c c
| M_Eos rest c :
    rest = "" \/ rest = String "010" "" -> matches Re.Eos "" rest c c.

(** The floor pattern in words: a non-empty run of digits, an optional
    ordinal suffix, a non-empty run of white space and the word "floor",
    letters in either case. *)
Definition floor_name_pattern (s digits : string) : Prop :=
  exists suffix spaces word,
    s = digits ++ suffix ++ spaces ++ word /\
    digits <> "" /\ all_chars Str.is_digit digits = true /\
    In (Str.lower suffix) [""; "st"; "nd"; "rd"; "th"] /\
    spaces <> "" /\ all_chars Str.is_space spaces = true /\
    Str.lower word = "floor".

(** ** Notions for the model and note fields *)

(** The model field as the specification words it: for a name that
    starts with "c" in either case and has no hyphen, the upper-cased
    name with one hyphen after its first character; otherwise the
    upper-cased name. *)
Definition hyphen_after_leading_C (model_raw : string) : string :=
  if Str.startswith "c" (Str.lower model_raw) && negb (Str.contains "-" model_raw)
  then match Str.upper model_raw with
       | String c rest => String c (String "-" rest)
       | EmptyString => EmptyString
       end
  else Str.upper model_raw.

(** A record with its floor name written out. *)
Definition explicit_floor (ap : AccessPoint) : AccessPoint :=
  mkAP (model ap) (Some (floor_of ap)) (coordinate_xyz ap).

Definition is_object (v : json) : bool :=
  match v with
  | JObject _ => true
  | _ => false
  end.

(** A JSON number. *)
Definition is_number (v : json) : bool :=
  match v with
  | JInt _ | JFloat _ => true
  | _ => false
  end.

(** An integer that [float] converts without overflow. *)
Definition in_float_range (z : Z) : bool :=
  match binary_normalize 53 1024 z 0 false with
  | S754_infinity _ => false
  | _ => true
  end.

(** The values [".1f"] formats: floats, booleans and the integers in the
    range of floats. *)
Definition formattable (v : json) : bool :=
  match v with
  | JFloat _ | JBool _ => true
  | JInt z => in_float_range z
  | _ => false
  end.

(** The value [d.get(key)] of a dictionary. *)
Definition get_or_none (key : string) (d : list (string * json)) : json :=
  match lookup key d with
  | Some v => v
  | None => JNull
  end.

(** "A non-empty object missing a numeric x or y". *)
Definition object_missing_numeric_xy (v : json) : Prop :=
  exists d, v = JObject d /\ d <> [] /\
            (is_number (get_or_none "x" d) = false \/
             is_number (get_or_none "y" d) = false).

(** The cell of a row under a column of the header. *)
Definition column (name : string) (row : list string) : option string :=
  lookup name (combine HEADER row).

(** The row of a record whose model field is [m] and note is [note]. *)
Definition row_of (placement_counter : Z) (m note : string) : list string :=
  [ placement_number placement_counter; m; "Internal Omni"; "N/A"; "N/A";
    "Hard Ceiling"; "<insert mounting bracket model>";
    "<insert mounting adapter model>"; "No"; "N/A"; "N/A"; "N/A"; "N/A"; note ].

(** A library that refuses every sheet. *)
Definition no_titles (_ : list string) (_ : string) : result string :=
  Err (LibraryError "refused").

(** Modelled from the spec: the answer of [openpyxl] (not part of the
    repository) to a title that a sheet of the workbook already has, a
    DuplicateNameError; any other title is given as asked. *)
Definition strict_titles (titles : list string) (name : string) : result string :=
  if existsb (String.eqb name) titles
  then Err (LibraryError "DuplicateNameError")
  else Ok name.

(** Two floor names with the same sheet name. *)
Definition colliding_aps : list AccessPoint :=
  [ mkAP (Some "c9130") (Some "1st Floor") None;
    mkAP (Some "c9130") (Some "1 floor") None ].

(** ** Notions for the run as a whole *)

(** The records in the order of the output: group after group. *)
Definition output_order (aps : list AccessPoint) : list AccessPoint :=
  List.concat (List.map snd (group_by_floor aps)).

(** All the data rows of a workbook, sheet after sheet. *)
Definition all_data_rows (wb : Workbook) : list (list string) :=
  flat_map data_rows wb.

(** A sheet as the program leaves it: the header in bold and frozen, then
    at least one row, every row as wide as the header. *)
Definition well_shaped (ws : Worksheet) : Prop :=
  hd_error (rows ws) = Some HEADER /\
  data_rows ws <> [] /\
  Forall (fun row => List.length row = List.length HEADER) (rows ws) /\
  header_bold ws = true /\
  freeze_panes ws = Some "A2".

(** Groups as the grouping loop makes them: distinct floor names, no
    empty group, every record under its own floor name. *)
Definition well_grouped (blocks : floor_dict) : Prop :=
  NoDup (List.map fst blocks) /\
  Forall (fun b => snd b <> [] /\ Forall (fun ap => floor_of ap = fst b) (snd b)) blocks.

(** The titles of the sheets [new], made in this order in a workbook that
    had the titles [before], are the answers of the library to the
    normalised floor names, each asked with the titles present by then. *)
Fixpoint titles_answered (sheet_title : list string -> string -> result string)
         (before : list string) (new : Workbook) (floors : list string) : Prop :=
  match new, floors with
  | [], [] => True
  | ws :: new', floor :: floors' =>
      sheet_title before (normalise_sheet_name floor) = Ok (title ws) /\
      titles_answered sheet_title (before ++ [title ws])%list new' floors'
  | _, _ => False
  end.

(** ** Records as [json.load] gives them

    A record of the input is a JSON object whose values may be of any
    type.  Row building on it follows lines 94-117 value by value; the
    records of type [AccessPoint] are those whose model and floor name
    are text when present. *)

Definition RawRecord : Type := list (string * json).

(** [ap.get(key, default)] *)
Definition raw_get (ap : RawRecord) (key : string) (default : json) : json :=
  match lookup key ap with
  | Some v => v
  | None => default
  end.

(** Lines 95-96 on a value of any type: only a string has [lower] and
    [upper]. *)
Definition model_field (model_raw : json) : result string :=
  match model_raw with
  | JString s => Ok (normalise_model s)
  | _ => Err AttributeError
  end.

(** Lines 99-100. *)
Definition coord_note_raw (ap : RawRecord) : result string :=
  let got := raw_get ap "coordinate_xyz" JNull in
  let coord := if truthy got then got else JObject [] in
  if truthy coord then
    x <- json_get coord "x" ;;
    xs <- format_1f x ;;
    y <- json_get coord "y" ;;
    ys <- format_1f y ;;
    Ok ("x=" ++ xs ++ ", y=" ++ ys)
  else Ok "".

(** Lines 91-117. *)
Definition build_row_raw (placement_counter : Z) (ap : RawRecord)
  : result (list string) :=
  let placement_number := placement_number placement_counter in
  let model_raw := raw_get ap "model" (JString "") in
  model <- model_field model_raw ;;
  coord_note <- coord_note_raw ap ;;
  Ok [ placement_number; model; "Internal Omni"; "N/A"; "N/A"; "Hard Ceiling";
       "<insert mounting bracket model>"; "<insert mounting adapter model>";
       "No"; "N/A"; "N/A"; "N/A"; "N/A"; coord_note ].

(** A field that is absent or text. *)
Definition text_field (v : option json) : option (option string) :=
  match v with
  | None => Some None
  | Some (JString s) => Some (Some s)
  | Some _ => None
  end.

(** The record of type [AccessPoint] that a raw record is, when its model
    and floor name are absent or text. *)
Definition typed (ap : RawRecord) : option AccessPoint :=
  match text_field (lookup "model" ap), text_field (lookup "floorplan_name" ap) with
  | Some m, Some f => Some (mkAP m f (lookup "coordinate_xyz" ap))
  | _, _ => None
  end.

(** ** Notions for names with white space around them *)

(** Text of the ASCII range, on which the string methods above are those
    of Python. *)
Definition is_ascii_text (s : string) : bool :=
  all_chars (fun c => (Str.code c <? 128)%N) s.

(** A numbered floor name: white space, then a non-empty run of digits,
    an optional ordinal suffix, a non-empty run of white space and the
    word "floor", letters in either case, then white space. *)
Definition numbered_floor (name digits : string) : Prop :=
  exists lead suffix spaces word trail,
    name = lead ++ digits ++ suffix ++ spaces ++ word ++ trail /\
    all_chars Str.is_space lead = true /\
    all_chars Str.is_space trail = true /\
    digits <> "" /\ all_chars Str.is_digit digits = true /\
    In (Str.lower suffix) [""; "st"; "nd"; "rd"; "th"] /\
    spaces <> "" /\ all_chars Str.is_space spaces = true /\
    Str.lower word = "floor".

(** ** A sample run

    Three records on two floors, the floors interleaved. *)

Set Warnings "-inexact-float".

Definition sample_aps : list AccessPoint :=
  [ mkAP (Some "c9130") (Some "1st Floor")
         (Some (JObject [("x", JFloat 12.34%float); ("y", JFloat 5.6%float)]));
    mkAP (Some "ap-105") (Some "Lobby") None;
    mkAP None (Some "1st Floor") (Some JNull) ].

Definition sample_workbook : Workbook :=
  Eval vm_compute in
    match build_workbook plain_titles sample_aps with
    | Ok wb => wb
    | Err _ => []
    end.

Example placement_number_1 : placement_number 1 = "AP-001".
Proof. reflexivity. Qed.
Example placement_number_1000 : placement_number 1000 = "AP-1000".
Proof. reflexivity. Qed.
Example normalise_model_c9130 : normalise_model "c9130" = "C-9130".
Proof. reflexivity. Qed.
Example normalise_model_cisco : normalise_model "cisco" = "C-ISC-O".
Proof. reflexivity. Qed.
Example title_ex : Str.title "3rd floor it's" = "3Rd Floor It'S".
Proof. reflexivity. Qed.
Example strip_ex : Str.strip "  a b  " = "a b".
Proof. reflexivity. Qed.
Example normalise_1st : normalise_sheet_name "1st Floor" = "Floor 1".
Proof. reflexivity. Qed.
Example normalise_3rd : normalise_sheet_name " 23RD   fLOOR " = "Floor 23".
Proof. reflexivity. Qed.
Example normalise_lobby : normalise_sheet_name "lobby area" = "Lobby Area".
Proof. reflexivity. Qed.
Example normalise_1stx : normalise_sheet_name "1sth Floor" = "1Sth Floor".
Proof. reflexivity. Qed.

(** * Properties *)

(** ** Decimal numerals *)

Lemma parse_decimal_decimal (n : N) : parse_decimal (decimal n) = Some n.
Proof.
  unfold parse_decimal, decimal.
  rewrite NilEmpty.usu. simpl. now rewrite DecimalN.Unsigned.of_to.
Qed.

Lemma parse_decimal_zeros (k : nat) (s : string) :
  parse_decimal (Str.repeat "0" k ++ s) = parse_decimal s.
Proof.
  induction k as [|k IH]; [reflexivity|].
  unfold parse_decimal in *. simpl.
  destruct (NilEmpty.uint_of_string (Str.repeat "0" k ++ s)) as [d|];
    destruct (NilEmpty.uint_of_string s) as [d'|]; simpl in *; congruence.
Qed.

Lemma parse_format_03d (z : Z) :
  0 <= z -> parse_decimal (format_03d z) = Some (Z.to_N z).
Proof.
  intros Hz. unfold format_03d.
  destruct (Z.ltb_spec z 0) as [?|_]; [lia|].
  unfold zfill. rewrite parse_decimal_zeros, parse_decimal_decimal.
  f_equal. destruct z; simpl; try reflexivity; lia.
Qed.

Lemma placement_number_inj (a b : Z) :
  0 <= a -> 0 <= b -> placement_number a = placement_number b -> a = b.
Proof.
  intros Ha Hb H. unfold placement_number in H.
  assert (E : format_03d a = format_03d b) by (simpl in H; congruence).
  apply (f_equal parse_decimal) in E.
  rewrite !parse_format_03d in E by assumption.
  injection E as E. apply (f_equal Z.of_N) in E.
  rewrite !Z2N.id in E; assumption.
Qed.

Lemma length_append (s t : string) :
  String.length (s ++ t) = (String.length s + String.length t)%nat.
Proof. induction s; simpl; congruence. Qed.

Lemma length_repeat (c : ascii) (n : nat) : String.length (Str.repeat c n) = n.
Proof. induction n; simpl; congruence. Qed.

Lemma length_zfill (w : nat) (s : string) :
  String.length (zfill w s) = Nat.max w (String.length s).
Proof. unfold zfill. rewrite length_append, length_repeat. lia. Qed.

(** Below 1000 the padded numeral has exactly three characters. *)
Lemma length_format_03d_small (z : Z) :
  0 <= z < 1000 -> String.length (format_03d z) = 3%nat.
Proof.
  intros Hz.
  assert (A : forallb (fun i => Nat.eqb (String.length (format_03d (Z.of_nat i))) 3)
                      (seq 0 1000) = true) by (vm_compute; reflexivity).
  rewrite forallb_forall in A.
  specialize (A (Z.to_nat z)). rewrite Z2Nat.id in A by lia.
  apply Nat.eqb_eq, A, in_seq. lia.
Qed.

Lemma length_format_03d (z : Z) : (3 <= String.length (format_03d z))%nat.
Proof.
  unfold format_03d. destruct (z <? 0).
  - change (String.length ("-" ++ ?s)) with (S (String.length s)).
    simpl. rewrite length_zfill. lia.
  - rewrite length_zfill. lia.
Qed.

(** ** The result monad *)

Lemma bind_ok {A B} (r : result A) (k : A -> result B) (b : B) :
  bind r k = Ok b -> exists a, r = Ok a /\ k a = Ok b.
Proof. destruct r as [a|e]; simpl; [eauto | discriminate]. Qed.

Lemma bind_err {A B} (r : result A) (k : A -> result B) (e : exn) :
  bind r k = Err e -> r = Err e \/ exists a, r = Ok a /\ k a = Err e.
Proof. destruct r as [a|e']; simpl; [eauto | intros [= ->]; auto]. Qed.

Ltac inv_bind H :=
  let a := fresh "a" in
  let E := fresh "E" in
  apply bind_ok in H; destruct H as (a & E & H).

(** ** Rows and counters *)

Lemma build_row_ok (c : Z) (ap : AccessPoint) (row : list string) :
  build_row c ap = Ok row ->
  exists note,
    coord_note ap = Ok note /\
    row = [ placement_number c; normalise_model (get_default (model ap) "");
            "Internal Omni"; "N/A"; "N/A"; "Hard Ceiling";
            "<insert mounting bracket model>"; "<insert mounting adapter model>";
            "No"; "N/A"; "N/A"; "N/A"; "N/A"; note ].
Proof.
  unfold build_row. intros H. inv_bind H. injection H as <-. eauto.
Qed.

Lemma count_from_length (c : Z) (n : nat) : List.length (count_from c n) = n.
Proof. revert c; induction n; intros; simpl; auto. Qed.

Lemma count_from_app (c : Z) (n m : nat) :
  count_from c (n + m) = (count_from c n ++ count_from (c + Z.of_nat n) m)%list.
Proof.
  revert c; induction n as [|n IH]; intros c.
  - simpl. now rewrite Z.add_0_r.
  - cbn [Nat.add count_from app]. rewrite IH. do 3 f_equal. lia.
Qed.

Lemma count_from_In (c : Z) (n : nat) (x : Z) :
  In x (count_from c n) <-> c <= x < c + Z.of_nat n.
Proof.
  revert c; induction n as [|n IH]; intros c.
  - simpl. lia.
  - cbn [count_from In]. rewrite IH. lia.
Qed.

Lemma count_from_NoDup (c : Z) (n : nat) : NoDup (count_from c n).
Proof.
  revert c; induction n as [|n IH]; intros c; simpl; constructor; auto.
  rewrite count_from_In. lia.
Qed.

Lemma count_from_seq (n : nat) :
  count_from 1 n = List.map Z.of_nat (seq 1 n).
Proof.
  change 1 with (Z.of_nat 1) at 1. generalize 1%nat as c.
  induction n as [|n IH]; intros c; simpl; [reflexivity|].
  f_equal. rewrite <- IH. f_equal. lia.
Qed.

(** The inner loop gives one row per record, in order, numbered with
    consecutive counter values, and leaves the counter after them. *)
Lemma build_rows_ok (c : Z) (aps : list AccessPoint) rows c' :
  build_rows c aps = Ok (rows, c') ->
  c' = c + Z.of_nat (List.length aps) /\
  Forall2 (fun row p => build_row (fst p) (snd p) = Ok row)
          rows (combine (count_from c (List.length aps)) aps) /\
  List.map (hd "") rows = List.map placement_number (count_from c (List.length aps)).
Proof.
  revert c rows c'. induction aps as [|ap aps IH]; intros c rows c' H; simpl in H.
  - injection H as <- <-. simpl. repeat split; [lia | constructor].
  - inv_bind H. inv_bind H. destruct a0 as [rows0 c0]. injection H as <- <-.
    apply IH in E0 as (-> & F & M).
    cbn [List.length count_from combine List.map].
    repeat split.
    + lia.
    + constructor; [exact E | exact F].
    + rewrite M. f_equal.
      apply build_row_ok in E as (note & _ & ->). reflexivity.
Qed.

(** The inner loop fails exactly when some row does; the first failure is
    the one reported. *)
Lemma build_rows_total (c : Z) (aps : list AccessPoint) :
  (forall ap, In ap aps -> exists note, coord_note ap = Ok note) ->
  exists rows, build_rows c aps = Ok (rows, c + Z.of_nat (List.length aps)).
Proof.
  revert c. induction aps as [|ap aps IH]; intros c H.
  - exists []. simpl. do 2 f_equal. lia.
  - destruct (H ap (or_introl eq_refl)) as (note & Hn).
    destruct (IH (c + 1)) as (rows & Hr); [intros; apply H; now right|].
    eexists. simpl. unfold build_row at 1. rewrite Hn. simpl. rewrite Hr. simpl.
    do 2 f_equal. lia.
Qed.

(** ** Sheets *)

Section Sheets.

Variable sheet_title : list string -> string -> result string.

Lemma Forall2_combine_r {A B C} (P : A -> C -> Prop) (Q : A -> B * C -> Prop)
      (l : list A) (bs : list B) (cs : list C) :
  (forall a p, Q a p -> P a (snd p)) ->
  List.length bs = List.length cs ->
  Forall2 Q l (combine bs cs) -> Forall2 P l cs.
Proof.
  intros PQ. revert l bs. induction cs as [|c cs IH]; intros l [|b bs] L F;
    simpl in *; try discriminate.
  - inversion F. constructor.
  - inversion F; subst. constructor; [apply (PQ _ _ H2) | eapply IH; eauto].
Qed.

Lemma total_cons (k : string) (aps : list AccessPoint) (rest : floor_dict) :
  total ((k, aps) :: rest) = (List.length aps + total rest)%nat.
Proof. reflexivity. Qed.

Lemma fill_sheets_ok (wb : Workbook) (c : Z) (by_floor : floor_dict) wb' c' :
  fill_sheets sheet_title wb c by_floor = Ok (wb', c') ->
  exists new,
    wb' = (wb ++ new)%list /\
    c' = c + Z.of_nat (total by_floor) /\
    Forall2 (sheet_for sheet_title) new by_floor /\
    placement_column new = List.map placement_number (count_from c (total by_floor)).
Proof.
  revert wb c. induction by_floor as [|[floor_name aps] rest IH]; intros wb c H;
    simpl in H.
  - injection H as <- <-. exists []. rewrite app_nil_r. unfold total. simpl.
    repeat split; [lia | constructor].
  - inv_bind H. inv_bind H. destruct a0 as [data c0].
    unfold create_sheet in E. inv_bind E. injection E as <-. simpl in H.
    apply build_rows_ok in E0 as (-> & F & M).
    apply IH in H as (new & -> & -> & F' & P').
    eexists (_ :: new). rewrite <- app_assoc. split; [reflexivity|].
    rewrite total_cons.
    split; [lia|]. split.
    + constructor; [|exact F'].
      unfold sheet_for, data_rows. cbn. repeat split; eauto.
      eapply Forall2_combine_r with (Q := fun row p => build_row (fst p) (snd p) = Ok row);
        [ intros a p Hp; eauto | apply count_from_length | exact F ].
    + unfold placement_column in *. cbn [flat_map]. rewrite P'.
      unfold data_rows at 1. cbn [rows tl]. rewrite M.
      rewrite count_from_app, map_app. reflexivity.
Qed.

(** The outer loop completes when the library accepts every title and
    every row can be built. *)
Lemma fill_sheets_total (wb : Workbook) (c : Z) (by_floor : floor_dict) :
  (forall titles name, exists t, sheet_title titles name = Ok t) ->
  (forall g ap, In g by_floor -> In ap (snd g) -> exists note, coord_note ap = Ok note) ->
  exists wb', fill_sheets sheet_title wb c by_floor = Ok (wb', c + Z.of_nat (total by_floor)).
Proof.
  intros Ht. revert wb c. induction by_floor as [|[floor_name aps] rest IH];
    intros wb c Hn.
  - exists wb. unfold total. simpl. do 2 f_equal. lia.
  - simpl. unfold create_sheet.
    destruct (Ht (List.map title wb) (normalise_sheet_name floor_name)) as (t & ->).
    simpl.
    destruct (build_rows_total c aps) as (data & ->).
    { intros ap Hap. apply (Hn (floor_name, aps)); [now left | exact Hap]. }
    simpl.
    edestruct IH as (wb' & ->).
    { intros g ap Hg. apply Hn. now right. }
    eexists. rewrite total_cons. do 2 f_equal. lia.
Qed.

End Sheets.

(** ** Grouping *)

Lemma first_seen_In (x : string) (l : list string) :
  In x (first_seen l) <-> In x l.
Proof.
  induction l as [|a l IH]; simpl; [tauto|].
  rewrite filter_In, IH, negb_true_iff, String.eqb_neq.
  destruct (String.eqb_spec a x); subst; intuition congruence.
Qed.

Lemma first_seen_NoDup (l : list string) : NoDup (first_seen l).
Proof.
  induction l as [|a l IH]; simpl; constructor.
  - rewrite filter_In, String.eqb_refl. simpl. intros [_ [=]].
  - now apply NoDup_filter.
Qed.

Lemma filter_absent (x : string) (l : list string) :
  ~ In x l -> filter (fun y => negb (String.eqb y x)) l = l.
Proof.
  induction l as [|a l IH]; simpl; intros H; [reflexivity|].
  destruct (String.eqb_spec a x); [tauto|]. simpl. f_equal. tauto.
Qed.

Lemma first_seen_snoc (l : list string) (x : string) :
  first_seen (l ++ [x]) =
  if in_dec string_dec x l then first_seen l else (first_seen l ++ [x])%list.
Proof.
  induction l as [|a l IH]; simpl; [reflexivity|].
  rewrite IH.
  destruct (string_dec a x) as [->|N].
  - destruct (in_dec string_dec x l); [reflexivity|].
    rewrite filter_app. simpl. rewrite String.eqb_refl. simpl.
    now rewrite app_nil_r.
  - destruct (in_dec string_dec x l) as [i|i].
    + reflexivity.
    + rewrite filter_app. simpl.
      destruct (String.eqb_spec x a); [congruence|]. reflexivity.
Qed.

Lemma dict_append_keys (g : string -> list AccessPoint) (floor : string)
      (ap : AccessPoint) (ks : list string) :
  NoDup ks ->
  dict_append (List.map (fun k => (k, g k)) ks) floor ap =
  if in_dec string_dec floor ks
  then List.map (fun k => (k, if String.eqb k floor then (g k ++ [ap])%list else g k)) ks
  else (List.map (fun k => (k, g k)) ks ++ [(floor, [ap])])%list.
Proof.
  induction ks as [|k ks IH]; intros ND; [reflexivity|].
  inversion ND as [|? ? Hk ND']; subst. simpl.
  destruct (String.eqb_spec k floor) as [->|N].
  - destruct (string_dec floor floor); [|congruence].
    f_equal. apply map_ext_in. intros k' Hk'.
    destruct (String.eqb_spec k' floor); [congruence|reflexivity].
  - rewrite IH by assumption.
    destruct (string_dec k floor); [congruence|].
    destruct (in_dec string_dec floor ks); reflexivity.
Qed.

Lemma filter_on_floor_absent (floor : string) (aps : list AccessPoint) :
  ~ In floor (List.map floor_of aps) -> filter (on_floor floor) aps = [].
Proof.
  induction aps as [|a aps IH]; simpl; intros H; [reflexivity|].
  unfold on_floor at 1. destruct (String.eqb_spec (floor_of a) floor); [tauto|].
  apply IH. tauto.
Qed.

Lemma filter_on_floor_snoc (k : string) (prev : list AccessPoint) (ap : AccessPoint) :
  filter (on_floor k) (prev ++ [ap]) =
  if String.eqb k (floor_of ap) then (filter (on_floor k) prev ++ [ap])%list
  else filter (on_floor k) prev.
Proof.
  rewrite filter_app. simpl. unfold on_floor at 2. rewrite (String.eqb_sym k).
  destruct (String.eqb (floor_of ap) k); [reflexivity | apply app_nil_r].
Qed.

(** One step of the grouping loop. *)
Lemma dict_append_grouped (prev : list AccessPoint) (ap : AccessPoint) :
  dict_append (grouped prev) (floor_of ap) ap = grouped (prev ++ [ap]).
Proof.
  unfold grouped.
  rewrite dict_append_keys by apply first_seen_NoDup.
  rewrite map_app. simpl. rewrite first_seen_snoc.
  destruct (in_dec string_dec (floor_of ap) (first_seen (List.map floor_of prev)))
    as [i|i]; rewrite first_seen_In in i;
    destruct (in_dec string_dec (floor_of ap) (List.map floor_of prev)); try tauto.
  - apply map_ext. intros k. rewrite filter_on_floor_snoc.
    destruct (String.eqb k (floor_of ap)); reflexivity.
  - rewrite map_app. simpl. f_equal.
    + apply map_ext_in. intros k Hk. rewrite first_seen_In in Hk.
      rewrite filter_on_floor_snoc.
      destruct (String.eqb_spec k (floor_of ap)); [congruence | reflexivity].
    + rewrite filter_on_floor_snoc, String.eqb_refl,
        filter_on_floor_absent by assumption.
      reflexivity.
Qed.

(** The loop of lines 70-73 computes the grouping of the specification. *)
Lemma group_by_floor_grouped (aps : list AccessPoint) :
  group_by_floor aps = grouped aps.
Proof.
  unfold group_by_floor. change (@nil (string * list AccessPoint)) with (grouped []).
  rewrite <- (app_nil_l aps) at 2. generalize (@nil AccessPoint) as prev.
  induction aps as [|ap aps IH]; intros prev; simpl.
  - now rewrite app_nil_r.
  - rewrite dict_append_grouped, IH, <- app_assoc. reflexivity.
Qed.

Lemma total_grouped (aps : list AccessPoint) : total (grouped aps) = List.length aps.
Proof.
  rewrite <- group_by_floor_grouped. unfold group_by_floor.
  assert (A : forall d, total (fold_left (fun by_floor ap =>
                dict_append by_floor (floor_of ap) ap) aps d)
              = (total d + List.length aps)%nat).
  { induction aps as [|ap aps IH]; intros d; simpl; [lia|].
    rewrite IH. clear IH.
    assert (B : total (dict_append d (floor_of ap) ap) = S (total d)).
    { induction d as [|[k l] d IHd]; simpl; [reflexivity|].
      destruct (String.eqb k (floor_of ap)); rewrite !total_cons.
      - rewrite length_app. simpl. lia.
      - rewrite IHd. lia. }
    lia. }
  apply A.
Qed.

(** ** Placement numbers *)

Lemma build_workbook_ok sheet_title (aps : list AccessPoint) (wb : Workbook) :
  build_workbook sheet_title aps = Ok wb ->
  Forall2 (sheet_for sheet_title) wb (grouped aps) /\
  placement_column wb = List.map placement_number (count_from 1 (List.length aps)).
Proof.
  unfold build_workbook. intros H. inv_bind H. destruct a as [wb' c'].
  injection H as <-. rewrite group_by_floor_grouped in E.
  apply fill_sheets_ok in E as (new & -> & _ & F & P).
  rewrite total_grouped in P. simpl. auto.
Qed.

(** C1. The placement numbers of a written workbook, read sheet after
    sheet and row after row, are those of the counter values
    1, 2, ..., N for the N input records: no two are equal, the first is
    AP-001, nothing restarts at a sheet boundary, and each is "AP-"
    followed by the decimal numeral of the counter value padded with
    zeros to three digits (exactly three below 1000). *)
Theorem placement_numbers_global sheet_title (aps : list AccessPoint) (wb : Workbook) :
  build_workbook sheet_title aps = Ok wb ->
  placement_column wb
    = List.map (fun i => placement_number (Z.of_nat i)) (seq 1 (List.length aps)) /\
  NoDup (placement_column wb) /\
  (aps <> [] -> hd_error (placement_column wb) = Some "AP-001") /\
  (forall i, (i < List.length aps)%nat ->
     exists digits,
       nth i (placement_column wb) "" = "AP-" ++ digits /\
       parse_decimal digits = Some (N.of_nat (i + 1)) /\
       (3 <= String.length digits)%nat /\
       (i + 1 < 1000 -> String.length digits = 3)%nat).
Proof.
  intros H. apply build_workbook_ok in H as (_ & P).
  assert (P' : placement_column wb
    = List.map (fun i => placement_number (Z.of_nat i)) (seq 1 (List.length aps))).
  { rewrite P, count_from_seq, map_map. reflexivity. }
  split; [exact P'|]. split; [|split].
  - rewrite P. apply NoDup_map_NoDup_ForallPairs; [|apply count_from_NoDup].
    intros a b Ha Hb. rewrite count_from_In in Ha, Hb.
    apply placement_number_inj; lia.
  - rewrite P'. destruct aps; [congruence|]. reflexivity.
  - intros i Hi. exists (format_03d (Z.of_nat (i + 1))).
    rewrite P'.
    rewrite (nth_indep _ "" (placement_number (Z.of_nat 0)))
      by (rewrite length_map, length_seq; exact Hi).
    rewrite (map_nth (fun i => placement_number (Z.of_nat i))), seq_nth by exact Hi.
    replace (1 + i)%nat with (i + 1)%nat by lia.
    split; [reflexivity|]. split; [|split].
    + rewrite parse_format_03d by lia. f_equal. lia.
    + apply length_format_03d.
    + intros Hs. apply length_format_03d_small. lia.
Qed.

Lemma placement_numbers_global_witness :
  build_workbook plain_titles sample_aps = Ok sample_workbook /\
  List.map title sample_workbook = ["Floor 1"; "Lobby"] /\
  placement_column sample_workbook = ["AP-001"; "AP-002"; "AP-003"].
Proof.
  split; [reflexivity|]. split; [reflexivity|].
  exact (proj1 (placement_numbers_global plain_titles sample_aps sample_workbook eq_refl)).
Defined.

(** ** Groups and sheets *)

Lemma map_fst_grouped (aps : list AccessPoint) :
  List.map fst (grouped aps) = first_seen (List.map floor_of aps).
Proof. unfold grouped. rewrite map_map. simpl. apply map_id. Qed.

(** C3. Grouping gives one group per distinct raw floor name, the groups
    in the order in which the names first appear, each group holding the
    records of its floor in input order; a written workbook has exactly
    one sheet per group, in that order, so as many sheets as there are
    distinct floor names. *)
Theorem one_sheet_per_floor_in_first_seen_order (aps : list AccessPoint) :
  let by_floor := group_by_floor aps in
  let floors := List.map fst by_floor in
  (* one group per distinct floor name *)
  NoDup floors /\
  (forall floor, In floor floors <-> exists ap, In ap aps /\ floor_of ap = floor) /\
  (* in first-seen order: a name joins the end of the order when it is
     first met and never moves afterwards *)
  floors = first_seen (List.map floor_of aps) /\
  (forall prev ap,
      List.map fst (group_by_floor (prev ++ [ap])) =
      if in_dec string_dec (floor_of ap) (List.map floor_of prev)
      then List.map fst (group_by_floor prev)
      else (List.map fst (group_by_floor prev) ++ [floor_of ap])%list) /\
  (* records keep their input order within a group *)
  (forall floor group, In (floor, group) by_floor ->
      group = filter (on_floor floor) aps) /\
  (* one sheet per group, in the same order *)
  (forall sheet_title wb, build_workbook sheet_title aps = Ok wb ->
      Forall2 (sheet_for sheet_title) wb by_floor /\
      List.length wb = List.length (first_seen (List.map floor_of aps))).
Proof.
  cbv zeta. rewrite group_by_floor_grouped, map_fst_grouped.
  split; [apply first_seen_NoDup|]. split; [|split; [reflexivity|split; [|split]]].
  - intros floor. rewrite first_seen_In, in_map_iff.
    split; intros (ap & A & B); exists ap; auto.
  - intros prev ap. rewrite !group_by_floor_grouped, !map_fst_grouped, map_app.
    apply first_seen_snoc.
  - intros floor group H. unfold grouped in H. apply in_map_iff in H as (k & [= <- <-] & _).
    reflexivity.
  - intros sheet_title wb H. apply build_workbook_ok in H as (F & _).
    split; [exact F|]. rewrite (Forall2_length F). unfold grouped. apply length_map.
Qed.

Lemma one_sheet_per_floor_witness :
  List.map fst (group_by_floor sample_aps) = ["1st Floor"; "Lobby"] /\
  List.length sample_workbook = 2%nat.
Proof.
  pose proof (one_sheet_per_floor_in_first_seen_order sample_aps) as H.
  cbv zeta in H. destruct H as (_ & _ & F & _ & _ & W).
  split; [exact F|].
  exact (proj2 (W plain_titles sample_workbook eq_refl)).
Defined.

(** ** The matcher against the meaning of expressions *)

Lemma append_nil_r (s : string) : s ++ "" = s.
Proof. induction s; simpl; congruence. Qed.

Lemma append_assoc (a b c : string) : (a ++ b) ++ c = a ++ b ++ c.
Proof. induction a; simpl; congruence. Qed.

Lemma take_append (s rest : string) :
  Str.take (String.length (s ++ rest) - String.length rest) (s ++ rest) = s.
Proof.
  rewrite length_append.
  replace (String.length s + String.length rest - String.length rest)%nat
    with (String.length s) by lia.
  induction s as [|c s IH]; simpl.
  - destruct rest; reflexivity.
  - now rewrite IH.
Qed.

Lemma consumed_append (s rest : string) : Re.consumed (s ++ rest) rest = s.
Proof. apply take_append. Qed.

Lemma plus_loop_sound {A} p s (k : string -> option A) x :
  Re.plus_loop p s k = Some x ->
  exists s1 rest, s = s1 ++ rest /\ all_chars p s1 = true /\ k rest = Some x.
Proof.
  revert x. induction s as [|c s IH]; intros x H; simpl in H.
  - exists "", "". auto.
  - destruct (p c) eqn:Pc.
    + destruct (Re.plus_loop p s k) as [y|] eqn:L; simpl in H.
      * injection H as ->. destruct (IH x eq_refl) as (s1 & rest & -> & Hs & Hk).
        exists (String c s1), rest. simpl. rewrite Pc. auto.
      * exists "", (String c s). auto.
    + exists "", (String c s). auto.
Qed.

Lemma plus_loop_complete {A} p s1 rest (k : string -> option A) :
  all_chars p s1 = true -> k rest <> None -> Re.plus_loop p (s1 ++ rest) k <> None.
Proof.
  induction s1 as [|c s1 IH]; simpl; intros Hs Hk.
  - destruct rest as [|c r]; simpl; [exact Hk|].
    destruct (p c); [|exact Hk].
    destruct (Re.plus_loop p r k); simpl; [discriminate | exact Hk].
  - apply andb_prop in Hs as [-> Hs].
    destruct (Re.plus_loop p (s1 ++ rest) k) eqn:L; simpl; [discriminate|].
    exfalso. now apply (IH Hs Hk).
Qed.

(** Whatever the matcher accepts is a match. *)
Lemma exec_sound {A} r : forall st (k : Re.state -> option A) x,
  Re.exec r st k = Some x ->
  exists s1 rest c',
    fst st = s1 ++ rest /\ matches r s1 rest (snd st) c' /\ k (rest, c') = Some x.
Proof.
  induction r as [p|p|r1 IH1 r2 IH2|r1 IH1 r2 IH2|r IH|r IH| |];
    intros [s c] k x H; simpl in H; simpl fst; simpl snd.
  - destruct s as [|ch s]; [discriminate|]. destruct (p ch) eqn:Pc; [|discriminate].
    exists (String ch ""), s, c. repeat split; auto. now constructor.
  - destruct s as [|ch s]; [discriminate|]. destruct (p ch) eqn:Pc; [|discriminate].
    apply plus_loop_sound in H as (s1 & rest & -> & Hs & Hk).
    exists (String ch s1), rest, c. repeat split; auto.
    constructor; [discriminate | simpl; now rewrite Pc].
  - apply IH1 in H as (s1 & rest1 & c1 & E1 & M1 & H). simpl in E1. subst s.
    apply IH2 in H as (s2 & rest & c2 & E2 & M2 & H). simpl in E2, M2. subst rest1.
    exists (s1 ++ s2), rest, c2. rewrite append_assoc. repeat split; auto.
    econstructor; eauto.
  - destruct (Re.exec r1 (s, c) k) as [y|] eqn:L; simpl in H.
    + injection H as ->. apply IH1 in L as (s1 & rest & c' & E & M & H).
      exists s1, rest, c'. repeat split; auto. now apply M_AltL.
    + apply IH2 in H as (s1 & rest & c' & E & M & H).
      exists s1, rest, c'. repeat split; auto. now apply M_AltR.
  - destruct (Re.exec r (s, c) k) as [y|] eqn:L; simpl in H.
    + injection H as ->. apply IH in L as (s1 & rest & c' & E & M & H).
      exists s1, rest, c'. repeat split; auto. now apply M_OptSome.
    + exists "", s, c. repeat split; auto. apply M_OptNone.
  - apply IH in H as (s1 & rest & c' & E & M & H). simpl in E, M, H. subst s.
    rewrite consumed_append in H.
    exists s1, rest, (Some s1). repeat split; auto. econstructor; eauto.
  - exists "", s, c. repeat split; auto. constructor.
  - destruct s as [|ch [|ch' s]]; try discriminate.
    + exists "", "", c. repeat split; auto. constructor. auto.
    + destruct (Ascii.eqb_spec ch "010"); [subst|discriminate].
      exists "", (String "010" ""), c. repeat split; auto. constructor. auto.
Qed.

(** Whenever there is a match after which the continuation succeeds, the
    matcher succeeds. *)
Lemma exec_complete {A} r s1 rest c c' :
  matches r s1 rest c c' ->
  forall k : Re.state -> option A,
    k (rest, c') <> None -> Re.exec r (s1 ++ rest, c) k <> None.
Proof.
  induction 1 as [p ch rest c Pc|p s rest c Hne Hs|r1 r2 s1 s2 rest c0 c1 c2 _ IH1 _ IH2
                 |r1 r2 s rest c c' _ IH|r1 r2 s rest c c' _ IH|r s rest c c' _ IH
                 |r rest c|r s rest c c' _ IH|rest c|rest c Hr]; intros k Hk; simpl.
  - now rewrite Pc.
  - destruct s as [|ch s]; [congruence|]. simpl in *.
    apply andb_prop in Hs as [-> Hs]. now apply plus_loop_complete.
  - rewrite append_assoc. apply IH1. now apply IH2.
  - destruct (Re.exec r1 (s ++ rest, c) k) eqn:L; simpl; [discriminate|].
    exfalso. now apply (IH k).
  - destruct (Re.exec r1 (s ++ rest, c) k); simpl; [discriminate|]. now apply IH.
  - destruct (Re.exec r (s ++ rest, c) k) eqn:L; simpl; [discriminate|].
    exfalso. now apply (IH k).
  - destruct (Re.exec r (rest, c) k); simpl; [discriminate | exact Hk].
  - apply IH. simpl. now rewrite consumed_append.
  - exact Hk.
  - destruct Hr as [->| ->]; simpl; exact Hk.
Qed.

(** ** The floor pattern *)

Lemma digit_not_space_nor_letter (c : ascii) :
  Str.is_digit c = true ->
  Str.is_space c = false /\ Str.is_alpha (Str.lower_char c) = false.
Proof.
  destruct c as [[] [] [] [] [] [] [] []]; vm_compute; intros; try discriminate; auto.
Qed.

Lemma lower_nil (s : string) : Str.lower s = "" -> s = "".
Proof. destruct s; [reflexivity | discriminate]. Qed.

(** A word matches the texts that equal it up to case. *)
Lemma matches_word (w s rest : string) (c c' : option string) :
  matches (Re.word w) s rest c c' <-> Str.lower s = Str.lower w /\ c' = c.
Proof.
  revert s c c'. induction w as [|a w IH]; intros s c c'; simpl; split.
  - inversion 1; subst. auto.
  - intros [E ->]. apply lower_nil in E as ->. constructor.
  - inversion 1 as [| |r1 r2 s1 s2 rest' c0 c1 c2 M1 M2| | | | | | | ]; subst.
    inversion M1; subst. apply IH in M2 as [E ->].
    split; [|reflexivity]. unfold Str.lower in *. simpl. f_equal; [|exact E].
    now apply Ascii.eqb_eq.
  - intros [E ->]. destruct s as [|b s]; [discriminate|].
    unfold Str.lower in *. simpl in E. injection E as Eb Es.
    change (String b s) with (String b "" ++ s). econstructor.
    + constructor. now apply Ascii.eqb_eq.
    + apply IH. auto.
Qed.

Lemma matches_alt r1 r2 s rest c c' :
  matches (Re.Alt r1 r2) s rest c c' <-> matches r1 s rest c c' \/ matches r2 s rest c c'.
Proof.
  split.
  - inversion 1; subst; auto.
  - intros [H|H]; [now apply M_AltL | now apply M_AltR].
Qed.

Lemma matches_opt r s rest c c' :
  matches (Re.Opt r) s rest c c' <-> matches r s rest c c' \/ (s = "" /\ c' = c).
Proof.
  split.
  - inversion 1; subst; auto.
  - intros [H|[-> ->]]; [now apply M_OptSome | apply M_OptNone].
Qed.

Lemma matches_seq r1 r2 s rest c0 c2 :
  matches (Re.Seq r1 r2) s rest c0 c2 <->
  exists s1 s2 c1, s = s1 ++ s2 /\ matches r1 s1 (s2 ++ rest) c0 c1 /\
                   matches r2 s2 rest c1 c2.
Proof.
  split.
  - inversion 1; subst; eauto 7.
  - intros (s1 & s2 & c1 & -> & M1 & M2). econstructor; eauto.
Qed.

Lemma matches_group1 r s rest c c' :
  matches (Re.Group1 r) s rest c c' <->
  (exists c1, matches r s rest c c1) /\ c' = Some s.
Proof.
  split.
  - inversion 1; subst; eauto.
  - intros [[c1 M] ->]. econstructor; eauto.
Qed.

Lemma matches_plus p s rest c c' :
  matches (Re.PlusClass p) s rest c c' <->
  s <> "" /\ all_chars p s = true /\ c' = c.
Proof.
  split.
  - inversion 1; subst; auto.
  - intros (N & A & ->). now constructor.
Qed.

Lemma matches_eos s rest c c' :
  matches Re.Eos s rest c c' <->
  s = "" /\ c' = c /\ (rest = "" \/ rest = String "010" "").
Proof.
  split.
  - inversion 1; subst; auto.
  - intros (-> & -> & R). now constructor.
Qed.

Lemma matches_suffix (s rest : string) (c c' : option string) :
  matches (Re.Opt (Re.Alt (Re.word "st") (Re.Alt (Re.word "nd")
                  (Re.Alt (Re.word "rd") (Re.word "th"))))) s rest c c'
  <-> In (Str.lower s) [""; "st"; "nd"; "rd"; "th"] /\ c' = c.
Proof.
  rewrite matches_opt, !matches_alt, !matches_word.
  change (Str.lower "st") with "st". change (Str.lower "nd") with "nd".
  change (Str.lower "rd") with "rd". change (Str.lower "th") with "th".
  simpl. split.
  - intros [[[E ->]|[[E ->]|[[E ->]|[E ->]]]]|[-> ->]]; auto 7.
  - intros [[E|[E|[E|[E|[E|[]]]]]] ->]; auto 7.
    symmetry in E. apply lower_nil in E. auto.
Qed.

(** What [FLOOR_RE] matches, and what its group holds. *)
Lemma matches_FLOOR_RE (s rest : string) (c' : option string) :
  matches FLOOR_RE s rest None c' <->
  exists digits, c' = Some digits /\ floor_name_pattern s digits /\
                 (rest = "" \/ rest = String "010" "").
Proof.
  unfold FLOOR_RE. split.
  - intros H.
    apply matches_seq in H as (d & s2 & c1 & -> & Md & M2).
    apply matches_group1 in Md as [[c0 Md] ->].
    apply matches_plus in Md as (Hd & Dd & _).
    apply matches_seq in M2 as (suffix & s3 & c2 & -> & Ms & M3).
    apply matches_suffix in Ms as [Hsuf ->].
    apply matches_seq in M3 as (spaces & s4 & c3 & -> & Mw & M4).
    apply matches_plus in Mw as (Hsp & Dsp & ->).
    apply matches_seq in M4 as (word & s5 & c4 & -> & Mf & Me).
    apply matches_word in Mf as [Hw ->].
    apply matches_eos in Me as (-> & -> & Hr).
    exists d. split; [reflexivity|]. split; [|assumption].
    exists suffix, spaces, word. rewrite append_nil_r. repeat split; auto.
  - intros (d & -> & (suffix & spaces & word & -> & Hd & Dd & Hsuf & Hsp & Dsp & Hw) & Hr).
    rewrite <- (append_nil_r word).
    apply matches_seq. do 3 eexists. split; [reflexivity|]. split.
    { apply matches_group1. split; [|reflexivity]. exists None.
      apply matches_plus. auto. }
    apply matches_seq. do 3 eexists. split; [reflexivity|]. split.
    { apply matches_suffix. split; [exact Hsuf | reflexivity]. }
    apply matches_seq. do 3 eexists. split; [reflexivity|]. split.
    { apply matches_plus. auto. }
    apply matches_seq. do 3 eexists. split; [reflexivity|]. split.
    { apply matches_word. split; [exact Hw | reflexivity]. }
    apply matches_eos. auto.
Qed.

(** The digits of a name of the pattern are determined by the name. *)
Lemma digits_then_other (d d' x x' : string) :
  all_chars Str.is_digit d = true -> all_chars Str.is_digit d' = true ->
  (exists ch r, x = String ch r /\ Str.is_digit ch = false) ->
  (exists ch r, x' = String ch r /\ Str.is_digit ch = false) ->
  d ++ x = d' ++ x' -> d = d'.
Proof.
  revert d'. induction d as [|a d IH]; intros [|a' d'] D D' X X' E; simpl in *.
  - reflexivity.
  - destruct X as (ch & r & -> & N). injection E as -> _.
    apply andb_prop in D' as [D' _]. congruence.
  - destruct X' as (ch & r & -> & N). injection E as -> _.
    apply andb_prop in D as [D _]. congruence.
  - injection E as -> E. apply andb_prop in D as [_ D]. apply andb_prop in D' as [_ D'].
    f_equal. eapply IH; eauto.
Qed.

Lemma after_digits_not_digit (suffix spaces tail : string) :
  In (Str.lower suffix) [""; "st"; "nd"; "rd"; "th"] ->
  spaces <> "" -> all_chars Str.is_space spaces = true ->
  exists ch r, suffix ++ spaces ++ tail = String ch r /\ Str.is_digit ch = false.
Proof.
  intros Hsuf Hne Hsp.
  assert (L : forall ch, Str.is_alpha (Str.lower_char ch) = true -> Str.is_digit ch = false).
  { intros ch A. destruct (Str.is_digit ch) eqn:D; [|reflexivity].
    apply digit_not_space_nor_letter in D as [_ D]. congruence. }
  destruct suffix as [|ch suffix].
  - destruct spaces as [|ch spaces]; [congruence|]. simpl in *.
    apply andb_prop in Hsp as [S _]. exists ch, (spaces ++ tail). split; [reflexivity|].
    destruct (Str.is_digit ch) eqn:D; [|reflexivity].
    apply digit_not_space_nor_letter in D as [D _]. congruence.
  - exists ch, (suffix ++ spaces ++ tail). split; [reflexivity|].
    apply L. simpl in Hsuf.
    destruct Hsuf as [E|[E|[E|[E|[E|[]]]]]]; try discriminate;
      injection E as <- _; reflexivity.
Qed.

Lemma floor_name_pattern_unique (s s' rest rest' d d' : string) :
  floor_name_pattern s d -> floor_name_pattern s' d' ->
  s ++ rest = s' ++ rest' -> d = d'.
Proof.
  intros (suf & sp & w & -> & _ & D & Hsuf & Hne & Hsp & _)
         (suf' & sp' & w' & -> & _ & D' & Hsuf' & Hne' & Hsp' & _) E.
  rewrite !append_assoc in E.
  eapply digits_then_other; [exact D | exact D' | | | exact E].
  - rewrite ?append_assoc. now apply after_digits_not_digit.
  - rewrite ?append_assoc. now apply after_digits_not_digit.
Qed.

(** [FLOOR_RE.match(s)] succeeds exactly on the names of the pattern, a
    final line feed allowed, and [group(1)] is the run of digits. *)
Lemma FLOOR_RE_match (s d : string) :
  Re.match_group1 FLOOR_RE s = Some d <->
  exists s1 rest, s = s1 ++ rest /\ floor_name_pattern s1 d /\
                  (rest = "" \/ rest = String "010" "").
Proof.
  unfold Re.match_group1. split.
  - intros H. apply exec_sound in H as (s1 & rest & c' & E & M & K).
    simpl in E, M, K. apply matches_FLOOR_RE in M as (d' & -> & P & R).
    injection K as <-. eauto.
  - intros (s1 & rest & -> & P & R).
    assert (M : matches FLOOR_RE s1 rest None (Some d))
      by (apply matches_FLOOR_RE; eauto).
    destruct (Re.exec FLOOR_RE (s1 ++ rest, None)
               (fun st => Some match snd st with Some g => g | None => "" end))
      as [d'|] eqn:X.
    + f_equal. apply exec_sound in X as (s1' & rest' & c' & E & M' & K).
      simpl in E, M', K. apply matches_FLOOR_RE in M' as (d'' & -> & P' & R').
      injection K as <-. symmetry. eapply floor_name_pattern_unique; eauto.
    + exfalso. revert X. apply (exec_complete _ _ _ _ _ M). discriminate.
Qed.

(** ** Sheet names *)

Lemma rstrip_last_not_space (s t : string) (c : ascii) :
  Str.rstrip s = t ++ String c "" -> Str.is_space c = false.
Proof.
  revert t. induction s as [|a s IH]; intros t H; simpl in H.
  - destruct t; discriminate.
  - destruct (Str.rstrip s) as [|b r] eqn:R.
    + destruct (Str.is_space a) eqn:Sa.
      * destruct t; discriminate.
      * destruct t as [|a' t]; [injection H as <-; exact Sa|].
        injection H as _ H. destruct t; discriminate.
    + destruct t as [|a' t]; [discriminate|].
      injection H as _ H. now apply (IH t).
Qed.

Lemma strip_no_final_line_feed (name s1 : string) :
  Str.strip name <> s1 ++ String "010" "".
Proof.
  intros H. apply rstrip_last_not_space in H. discriminate.
Qed.

Lemma length_take (n : nat) (s : string) :
  String.length (Str.take n s) = Nat.min n (String.length s).
Proof.
  revert s. induction n as [|n IH]; intros [|c s]; simpl; auto.
Qed.

Lemma length_title_from (b : bool) (s : string) :
  String.length (Str.title_from b s) = String.length s.
Proof. revert b. induction s as [|c s IH]; intros b; simpl; auto. Qed.

Lemma normalise_sheet_name_match (name d : string) :
  Re.match_group1 FLOOR_RE (Str.strip name) = Some d <->
  floor_name_pattern (Str.strip name) d.
Proof.
  rewrite FLOOR_RE_match. split.
  - intros (s1 & rest & E & P & [->| ->]).
    + rewrite append_nil_r in E. now rewrite E.
    + now apply strip_no_final_line_feed in E.
  - intros P. exists (Str.strip name), "". rewrite append_nil_r. auto.
Qed.


(** ** Names with white space around them *)

Lemma lstrip_decompose (s : string) :
  exists lead, s = lead ++ Str.lstrip s /\ all_chars Str.is_space lead = true.
Proof.
  induction s as [|c s (lead & E & L)]; [now exists ""|]. simpl.
  destruct (Str.is_space c) eqn:Sc.
  - exists (String c lead). simpl. rewrite Sc, L. split; [now f_equal | reflexivity].
  - now exists "".
Qed.

Lemma rstrip_decompose (s : string) :
  exists trail, s = Str.rstrip s ++ trail /\ all_chars Str.is_space trail = true.
Proof.
  induction s as [|c s (trail & E & T)]; [now exists ""|]. simpl.
  destruct (Str.rstrip s) as [|b r] eqn:R.
  - simpl in E. subst s. destruct (Str.is_space c) eqn:Sc.
    + exists (String c trail). simpl. now rewrite Sc, T.
    + now exists trail.
  - exists trail. split; [|exact T]. simpl. f_equal. exact E.
Qed.

Lemma strip_decompose (s : string) :
  exists lead trail,
    s = lead ++ Str.strip s ++ trail /\
    all_chars Str.is_space lead = true /\ all_chars Str.is_space trail = true.
Proof.
  destruct (lstrip_decompose s) as (lead & E & L).
  destruct (rstrip_decompose (Str.lstrip s)) as (trail & E' & T).
  exists lead, trail. unfold Str.strip. rewrite <- E'. auto.
Qed.

Lemma lstrip_spaces_app (lead s : string) :
  all_chars Str.is_space lead = true -> Str.lstrip (lead ++ s) = Str.lstrip s.
Proof.
  induction lead as [|c lead IH]; [reflexivity|]. simpl. intros H.
  apply andb_prop in H as [-> H]. now apply IH.
Qed.

Lemma rstrip_spaces (trail : string) :
  all_chars Str.is_space trail = true -> Str.rstrip trail = "".
Proof.
  induction trail as [|c trail IH]; [reflexivity|]. simpl. intros H.
  apply andb_prop in H as [-> H]. now rewrite IH.
Qed.

Lemma rstrip_app_spaces (s trail : string) :
  all_chars Str.is_space trail = true -> Str.rstrip (s ++ trail) = Str.rstrip s.
Proof.
  intros T. induction s as [|c s IH]; simpl; [now apply rstrip_spaces|].
  now rewrite IH.
Qed.

Lemma rstrip_ends_nonspace (s : string) (c : ascii) :
  Str.is_space c = false -> Str.rstrip (s ++ String c "") = s ++ String c "".
Proof.
  intros Sc. induction s as [|a s IH]; simpl; [now rewrite Sc|].
  rewrite IH. now destruct s.
Qed.

Lemma space_not_letter (c : ascii) :
  Str.is_space c = true -> Str.is_alpha (Str.lower_char c) = false.
Proof.
  destruct c as [[] [] [] [] [] [] [] []]; vm_compute; intros; try discriminate; auto.
Qed.

Lemma floor_word_last (word : string) :
  Str.lower word = "floor" ->
  exists w c, word = w ++ String c "" /\ Str.is_space c = false.
Proof.
  unfold Str.lower.
  destruct word as [|a [|b [|c [|d [|e [|x word]]]]]]; simpl; try discriminate.
  intros H. injection H as _ _ _ _ He.
  exists (String a (String b (String c (String d "")))), e. split; [reflexivity|].
  destruct (Str.is_space e) eqn:Se; [|reflexivity].
  apply space_not_letter in Se. rewrite He in Se. discriminate.
Qed.

Lemma floor_name_pattern_strip (core digits lead trail : string) :
  floor_name_pattern core digits ->
  all_chars Str.is_space lead = true -> all_chars Str.is_space trail = true ->
  Str.strip (lead ++ core ++ trail) = core.
Proof.
  intros (suffix & spaces & word & -> & Hd & Dd & _ & _ & _ & Hw) L T.
  destruct (floor_word_last word Hw) as (w & c & -> & Sc).
  unfold Str.strip. rewrite lstrip_spaces_app by exact L.
  destruct digits as [|x digits]; [congruence|]. simpl in Dd.
  apply andb_prop in Dd as [Dx _].
  apply digit_not_space_nor_letter in Dx as [Sx _].
  assert (E : Str.lstrip ((String x digits ++ suffix ++ spaces ++ w ++ String c "") ++ trail)
              = (String x digits ++ suffix ++ spaces ++ w ++ String c "") ++ trail)
    by (simpl; now rewrite Sx).
  rewrite E, rstrip_app_spaces by exact T.
  rewrite <- !append_assoc. now apply rstrip_ends_nonspace.
Qed.

(** A numbered floor name is a name of the floor pattern once the white
    space around it is taken off, and conversely. *)
Lemma numbered_floor_strip (name digits : string) :
  numbered_floor name digits <-> floor_name_pattern (Str.strip name) digits.
Proof.
  split.
  - intros (lead & suffix & spaces & word & trail & -> & L & T & Hd & Dd & Hsuf & Hsp
            & Dsp & Hw).
    assert (P : floor_name_pattern (digits ++ suffix ++ spaces ++ word) digits).
    { exists suffix, spaces, word. repeat split; auto. }
    replace (lead ++ digits ++ suffix ++ spaces ++ word ++ trail)
      with (lead ++ (digits ++ suffix ++ spaces ++ word) ++ trail)
      by now rewrite !append_assoc.
    now rewrite (floor_name_pattern_strip _ _ lead trail P L T).
  - intros (suffix & spaces & word & E & Hd & Dd & Hsuf & Hsp & Dsp & Hw).
    destruct (strip_decompose name) as (lead & trail & En & L & T).
    exists lead, suffix, spaces, word, trail. repeat split; auto.
    rewrite En at 1. rewrite E. now rewrite !append_assoc.
Qed.




(** ** The model field *)

Lemma lower_c_upper_C (x : ascii) :
  Ascii.eqb "c" (Str.lower_char x) = Ascii.eqb "C" (Str.upper_char x).
Proof. destruct x as [[] [] [] [] [] [] [] []]; reflexivity. Qed.

Lemma replace_C_absent (t : string) :
  Str.contains "c" (Str.lower t) = false ->
  Str.replace "C" "C-" (Str.upper t) = Str.upper t.
Proof.
  unfold Str.replace, Str.lower, Str.upper.
  induction t as [|x t IH]; [reflexivity|].
  cbn [Str.map Str.contains Str.startswith Str.replace_from].
  rewrite andb_true_r, <- lower_c_upper_C. intros H.
  apply orb_false_iff in H as [-> H]. now rewrite IH.
Qed.

(** Where the raw name has no "c" after its first character the program
    and the specification agree on the model field. *)
Lemma normalise_model_single_C (model_raw : string) :
  Str.contains "c" (Str.lower (match model_raw with
                               | String _ t => t
                               | EmptyString => EmptyString
                               end)) = false ->
  normalise_model model_raw = hyphen_after_leading_C model_raw.
Proof.
  unfold normalise_model, hyphen_after_leading_C.
  destruct model_raw as [|x t]; [reflexivity|]. intros H.
  destruct (Str.startswith "c" (Str.lower (String x t))) eqn:S; [|reflexivity].
  destruct (Str.contains "-" (String x t)); [reflexivity|]. simpl andb. cbv iota.
  unfold Str.lower in S. cbn [Str.map Str.startswith] in S.
  rewrite andb_true_r, lower_c_upper_C in S.
  pose proof (replace_C_absent t H) as R.
  unfold Str.replace, Str.upper in *.
  cbn [Str.map Str.replace_from Str.startswith]. rewrite andb_true_r, S.
  apply Ascii.eqb_eq in S. rewrite <- S. simpl. now rewrite R.
Qed.

(** C2. The program hyphenates every "C" of the upper-cased name, not
    only the leading one: on "c9120c" it gives "C-9120C-" where the
    specification gives "C-9120C".  The examples of the specification,
    which have a single "C", come out as specified, and a name that
    has a hyphen or no leading "c" is upper-cased. *)
Theorem normalise_model_hyphenates_every_C :
  normalise_model "c9120c" = "C-9120C-" /\
  hyphen_after_leading_C "c9120c" = "C-9120C" /\
  normalise_model "c9120c" <> hyphen_after_leading_C "c9120c" /\
  normalise_model "c9130" = "C-9130" /\
  normalise_model "C9130AXI" = "C-9130AXI" /\
  normalise_model "ap-105" = "AP-105" /\
  normalise_model "AIR-AP" = "AIR-AP" /\
  (forall model_raw,
      Str.startswith "c" (Str.lower model_raw) && negb (Str.contains "-" model_raw) = false ->
      normalise_model model_raw = Str.upper model_raw).
Proof.
  repeat split; try reflexivity.
  - discriminate.
  - intros model_raw H. unfold normalise_model. now rewrite H.
Qed.

(** ** The note field *)

Lemma column_row_of (c : Z) (m note : string) :
  column "Placement Number" (row_of c m note) = Some (placement_number c) /\
  column "AP Model" (row_of c m note) = Some m /\
  column "Notes" (row_of c m note) = Some note.
Proof. repeat split. Qed.

Lemma build_row_eq (c : Z) (ap : AccessPoint) :
  build_row c ap =
  bind (coord_note ap)
       (fun note => Ok (row_of c (normalise_model (get_default (model ap) "")) note)).
Proof. reflexivity. Qed.

(** The literals 12.34 and 5.6 denote the binary64 values nearest to
    1234/100 and 56/10: the distance is at most half a unit in the last
    place. *)
Lemma literals_nearest :
  Prim2SF 12.34%float = S754_finite false 6946802425218990 (-49) /\
  Z.abs (100 * 6946802425218990 - 1234 * 2 ^ 49) * 2 <= 100 /\
  Prim2SF 5.6%float = S754_finite false 6305039478318694 (-50) /\
  Z.abs (10 * 6305039478318694 - 56 * 2 ^ 50) * 2 <= 10.
Proof. repeat split; vm_compute; congruence. Qed.

(** C5. A record whose coordinates are x = 12.34 and y = 5.6 gets the
    note "x=12.3, y=5.6", each coordinate with one decimal; a record with
    no coordinates gets the empty note. *)
Theorem notes_of_coordinates (c : Z) (m f : option string) :
  let xy := [("x", JFloat 12.34%float); ("y", JFloat 5.6%float)] in
  let yx := [("y", JFloat 5.6%float); ("x", JFloat 12.34%float)] in
  (exists row, build_row c (mkAP m f (Some (JObject xy))) = Ok row /\
               column "Notes" row = Some "x=12.3, y=5.6") /\
  (exists row, build_row c (mkAP m f (Some (JObject yx))) = Ok row /\
               column "Notes" row = Some "x=12.3, y=5.6") /\
  (exists row, build_row c (mkAP m f None) = Ok row /\
               column "Notes" row = Some "").
Proof.
  cbv zeta. repeat split; rewrite build_row_eq.
  - eexists. split; [vm_compute coord_note; reflexivity | reflexivity].
  - eexists. split; [vm_compute coord_note; reflexivity | reflexivity].
  - eexists. split; [reflexivity | reflexivity].
Qed.

(** ** Empty input *)

(** C6. With an empty list of access points, or none at all, the program
    prints its message and exits with status 1; nothing is saved and the
    library is never asked for a sheet (the outcome is the same whatever
    the library would answer). *)
Theorem empty_input_exits_1 sheet_title load_json
        (prog json_path out_path : string) (data : Document) :
  load_json json_path = Ok data ->
  accesspoints data = None \/ accesspoints data = Some [] ->
  main sheet_title load_json [prog; json_path; out_path]
  = mkOutcome ["No access points found in JSON – aborting."] (SysExit 1) None.
Proof.
  intros L H. unfold main. rewrite L.
  destruct H as [-> | ->]; reflexivity.
Qed.

Lemma empty_input_exits_1_witness :
  main no_titles (fun _ => Ok (mkDoc (Some []))) ["generate_excel"; "in.json"; "out.xlsx"]
  = mkOutcome ["No access points found in JSON – aborting."] (SysExit 1) None.
Proof.
  apply (empty_input_exits_1 no_titles (fun _ => Ok (mkDoc (Some [])))
           "generate_excel" "in.json" "out.xlsx" (mkDoc (Some []))).
  - reflexivity.
  - right. reflexivity.
Defined.

(** ** Missing keys *)

Lemma floor_of_explicit (ap : AccessPoint) : floor_of (explicit_floor ap) = floor_of ap.
Proof. reflexivity. Qed.

Lemma filter_on_floor_explicit (k : string) (aps : list AccessPoint) :
  filter (on_floor k) (List.map explicit_floor aps)
  = List.map explicit_floor (filter (on_floor k) aps).
Proof.
  induction aps as [|a aps IH]; [reflexivity|].
  cbn [List.map filter]. rewrite IH.
  assert (E : on_floor k (explicit_floor a) = on_floor k a) by reflexivity.
  rewrite E. destruct (on_floor k a); reflexivity.
Qed.

Lemma In_grouped_lookup (k : string) (aps : list AccessPoint) :
  In k (List.map floor_of aps) ->
  lookup k (grouped aps) = Some (filter (on_floor k) aps).
Proof.
  unfold grouped. rewrite <- first_seen_In.
  induction (first_seen (List.map floor_of aps)) as [|k' ks IH]; simpl; [tauto|].
  destruct (String.eqb_spec k' k) as [->|N]; [reflexivity|].
  intros [E|H]; [congruence | now apply IH].
Qed.

(** C8. A record without a floor name is grouped under "Unknown Floor":
    it is in the group of that name and in no other, and writing the
    name out in the records that lack it leaves the grouping as it is. *)
Theorem missing_floor_is_unknown_floor (aps : list AccessPoint) (ap : AccessPoint) :
  floorplan_name ap = None ->
  In ap aps ->
  floor_of ap = "Unknown Floor" /\
  (exists group, lookup "Unknown Floor" (group_by_floor aps) = Some group /\ In ap group) /\
  (forall floor group, In (floor, group) (group_by_floor aps) -> In ap group ->
                       floor = "Unknown Floor") /\
  explicit_floor ap = mkAP (model ap) (Some "Unknown Floor") (coordinate_xyz ap) /\
  group_by_floor (List.map explicit_floor aps)
  = List.map (fun g => (fst g, List.map explicit_floor (snd g))) (group_by_floor aps).
Proof.
  intros N I.
  assert (F : floor_of ap = "Unknown Floor") by (unfold floor_of; now rewrite N).
  rewrite !group_by_floor_grouped.
  split; [exact F|]. split; [|split; [|split]].
  - exists (filter (on_floor "Unknown Floor") aps). split.
    + apply In_grouped_lookup. rewrite <- F. now apply in_map.
    + apply filter_In. split; [exact I|]. unfold on_floor. rewrite F. reflexivity.
  - intros floor group H G. unfold grouped in H.
    apply in_map_iff in H as (k & [= <- <-] & _).
    apply filter_In in G as [_ G]. unfold on_floor in G.
    apply String.eqb_eq in G. congruence.
  - unfold explicit_floor. now rewrite F.
  - unfold grouped. rewrite !map_map. simpl.
    rewrite (map_ext _ _ floor_of_explicit).
    apply map_ext. intros k. now rewrite filter_on_floor_explicit.
Qed.

Lemma missing_floor_is_unknown_floor_witness :
  lookup "Unknown Floor"
         (group_by_floor [mkAP (Some "c9130") (Some "Lobby") None; mkAP (Some "ap-105") None None])
  = Some [mkAP (Some "ap-105") None None] /\
  floor_of (mkAP (Some "ap-105") None None) = "Unknown Floor".
Proof.
  split; [reflexivity|].
  apply (missing_floor_is_unknown_floor
           [mkAP (Some "c9130") (Some "Lobby") None; mkAP (Some "ap-105") None None]
           (mkAP (Some "ap-105") None None)).
  - reflexivity.
  - right. left. reflexivity.
Defined.

(** C9 (amended). For a record without a model, the model step gives the
    empty string without error: the row is built whenever its note is,
    with an empty model field, and row building can only fail with the
    failure of the note; with coordinates that are absent, null or an
    empty object the row is always built. *)
Theorem missing_model_gives_empty (c : Z) (ap : AccessPoint) :
  model ap = None ->
  normalise_model (get_default (model ap) "") = "" /\
  (forall note, coord_note ap = Ok note ->
     build_row c ap = Ok (row_of c "" note) /\
     column "AP Model" (row_of c "" note) = Some "") /\
  (forall e, build_row c ap = Err e -> coord_note ap = Err e) /\
  (coordinate_xyz ap = None \/ coordinate_xyz ap = Some JNull \/
   coordinate_xyz ap = Some (JObject []) ->
   build_row c ap = Ok (row_of c "" "")).
Proof.
  intros M. rewrite build_row_eq, M. simpl get_default.
  change (normalise_model "") with "".
  split; [reflexivity|]. split; [|split].
  - intros note ->. split; reflexivity.
  - intros e H. destruct (coord_note ap); simpl in H; congruence.
  - unfold coord_note. intros [-> | [-> | ->]]; reflexivity.
Qed.

(** A record without a model whose coordinates are an array: the row is
    not built, so "row building succeeds for every record lacking the
    model key" does not hold as it stands. *)
Lemma missing_model_row_can_fail :
  model (mkAP None (Some "Lobby") (Some (JArray [JFloat 1.5; JFloat 2.5]))) = None /\
  build_row 1 (mkAP None (Some "Lobby") (Some (JArray [JFloat 1.5; JFloat 2.5])))
  = Err AttributeError.
Proof. split; reflexivity. Qed.

Lemma missing_model_gives_empty_witness :
  build_row 7 (mkAP None (Some "Lobby") None) = Ok (row_of 7 "" "").
Proof.
  apply (missing_model_gives_empty 7 (mkAP None (Some "Lobby") None) eq_refl).
  left. reflexivity.
Defined.

(** ** Failures of the note *)

Lemma format_1f_formattable (v : json) :
  (formattable v = true -> exists s, format_1f v = Ok s) /\
  (formattable v = false -> exists e, format_1f v = Err e).
Proof.
  destruct v as [|b|z|f|s|l|d]; simpl; split; intros H; try discriminate; eauto.
  - destruct b; vm_compute; eauto.
  - unfold float_of_int, in_float_range in *.
    destruct (binary_normalize 53 1024 z 0 false); simpl; try discriminate; eauto.
  - unfold float_of_int, in_float_range in *.
    destruct (binary_normalize 53 1024 z 0 false); simpl; try discriminate; eauto.
Qed.

Lemma formattable_number (v : json) :
  formattable v = true -> is_number v = true \/ exists b, v = JBool b.
Proof. destruct v; simpl; intros; try discriminate; eauto. Qed.

Lemma coord_note_object (m f : option string) (d : list (string * json)) :
  d <> [] ->
  coord_note (mkAP m f (Some (JObject d))) =
  bind (format_1f (get_or_none "x" d)) (fun xs =>
  bind (format_1f (get_or_none "y" d)) (fun ys =>
  Ok ("x=" ++ xs ++ ", y=" ++ ys))).
Proof. destruct d; [congruence|]. reflexivity. Qed.

Lemma coord_note_falsy (m f : option string) (v : json) :
  truthy v = false -> coord_note (mkAP m f (Some v)) = Ok "".
Proof. unfold coord_note. simpl. intros ->. reflexivity. Qed.

Lemma coord_note_not_object (m f : option string) (v : json) :
  truthy v = true -> is_object v = false ->
  coord_note (mkAP m f (Some v)) = Err AttributeError.
Proof.
  unfold coord_note. simpl get_default. intros T O. rewrite T, T.
  destruct v; simpl in *; try reflexivity; discriminate.
Qed.

(** A non-empty array of coordinates makes the note fail although it is
    not an object missing a numeric x or y. *)
Lemma note_fails_on_array :
  coord_note (mkAP (Some "c9130") (Some "Lobby") (Some (JArray [JFloat 1.5; JFloat 2.5])))
  = Err AttributeError /\
  build_row 1 (mkAP (Some "c9130") (Some "Lobby") (Some (JArray [JFloat 1.5; JFloat 2.5])))
  = Err AttributeError /\
  ~ object_missing_numeric_xy (JArray [JFloat 1.5; JFloat 2.5]).
Proof.
  repeat split. intros (d & E & _). discriminate.
Qed.

(** The failures of the note on a typed record: with coordinates that
    are null or an empty object the row is built and its note is empty;
    the note fails exactly when the coordinates are a truthy value that
    is not an object, or a non-empty object whose x or y is missing or is
    not a float, a boolean or an integer in the range of floats. *)
Lemma note_failures (c : Z) (ap : AccessPoint) :
  (coordinate_xyz ap = Some JNull \/ coordinate_xyz ap = Some (JObject []) ->
   build_row c ap = Ok (row_of c (normalise_model (get_default (model ap) "")) "") /\
   column "Notes" (row_of c (normalise_model (get_default (model ap) "")) "") = Some "") /\
  ((exists e, coord_note ap = Err e) <->
   exists v, coordinate_xyz ap = Some v /\ truthy v = true /\
     (is_object v = false \/
      exists d, v = JObject d /\ d <> [] /\
                (formattable (get_or_none "x" d) = false \/
                 formattable (get_or_none "y" d) = false))) /\
  (forall v, formattable v = true -> is_number v = true \/ exists b, v = JBool b).
Proof.
  split; [|split; [|exact formattable_number]].
  - rewrite build_row_eq. unfold coord_note. intros [-> | ->]; split; reflexivity.
  - destruct ap as [m f [v|]]; simpl coordinate_xyz.
    2:{ split; [intros [e H]; discriminate | intros (v & H & _); discriminate]. }
    destruct (truthy v) eqn:T.
    2:{ rewrite coord_note_falsy by exact T.
        split; [intros [e H]; discriminate | intros (v' & [= <-] & T' & _); congruence]. }
    destruct (is_object v) eqn:O.
    2:{ rewrite coord_note_not_object by assumption.
        split; [intros _; exists v; auto | eauto]. }
    destruct v as [| | | | | |d]; try discriminate.
    assert (Hd : d <> []) by (destruct d; [discriminate | congruence]).
    rewrite coord_note_object by exact Hd.
    destruct (format_1f_formattable (get_or_none "x" d)) as [Xt Xf].
    destruct (format_1f_formattable (get_or_none "y" d)) as [Yt Yf].
    split.
    + intros [e H]. exists (JObject d). repeat split; auto. right.
      exists d. repeat split; auto.
      destruct (formattable (get_or_none "x" d)); [|now left].
      destruct (formattable (get_or_none "y" d)); [|now right].
      destruct (Xt eq_refl) as [xs Hx]. destruct (Yt eq_refl) as [ys Hy].
      rewrite Hx, Hy in H. discriminate.
    + intros (v & [= <-] & _ & [O' | (d' & [= <-] & _ & [X | Y])]); [discriminate| |].
      * destruct (Xf X) as [e ->]. simpl. eauto.
      * destruct (Yf Y) as [e Hy]. rewrite Hy.
        destruct (format_1f (get_or_none "x" d)); simpl; eauto.
Qed.

(** ** Titles and the library *)

Section Library.

Variable sheet_title : list string -> string -> result string.
Variable load_json : string -> result Document.

Lemma fill_sheets_app (wb : Workbook) (c : Z) (pre post : floor_dict) :
  fill_sheets sheet_title wb c (pre ++ post)%list =
  bind (fill_sheets sheet_title wb c pre)
       (fun r => fill_sheets sheet_title (fst r) (snd r) post).
Proof.
  revert wb c. induction pre as [|[floor aps] pre IH]; intros wb c; [reflexivity|].
  cbn [app fill_sheets].
  destruct (create_sheet sheet_title wb (normalise_sheet_name floor)) as [ws|e];
    [|reflexivity].
  cbn [bind]. destruct (build_rows c aps) as [[data c0]|e]; [|reflexivity].
  cbn [bind]. apply IH.
Qed.

(** The program does not look at the titles itself: the exception the
    library raises for the sheet of a group, once the sheets of the
    groups before it are made, ends the run; nothing is printed and no
    workbook is saved. *)
Lemma library_error_is_uncaught (prog json_path out_path : string) (data : Document)
      (aps : list AccessPoint) (pre post : floor_dict) (floor : string)
      (group : list AccessPoint) (wb1 : Workbook) (c1 : Z) (e : exn) :
  load_json json_path = Ok data ->
  accesspoints data = Some aps ->
  group_by_floor aps = (pre ++ (floor, group) :: post)%list ->
  fill_sheets sheet_title [] 1 pre = Ok (wb1, c1) ->
  sheet_title (List.map title wb1) (normalise_sheet_name floor) = Err e ->
  main sheet_title load_json [prog; json_path; out_path] = mkOutcome [] (Uncaught e) None.
Proof.
  intros L A G F T. unfold main. rewrite L, A. simpl get_default.
  destruct aps as [|ap aps]; [destruct pre; discriminate|].
  unfold build_workbook. rewrite G, fill_sheets_app, F.
  cbn [bind fst snd fill_sheets]. unfold create_sheet. rewrite T. reflexivity.
Qed.

End Library.

Lemma library_error_is_uncaught_witness :
  main strict_titles (fun _ => Ok (mkDoc (Some colliding_aps)))
       ["generate_excel"; "in.json"; "out.xlsx"]
  = mkOutcome [] (Uncaught (LibraryError "DuplicateNameError")) None.
Proof.
  apply (library_error_is_uncaught strict_titles (fun _ => Ok (mkDoc (Some colliding_aps)))
           "generate_excel" "in.json" "out.xlsx" (mkDoc (Some colliding_aps)) colliding_aps
           [("1st Floor", [mkAP (Some "c9130") (Some "1st Floor") None])] []
           "1 floor" [mkAP (Some "c9130") (Some "1 floor") None]
           [mkSheet "Floor 1" [HEADER; row_of 1 "C-9130" ""] true (Some "A2")] 2);
    reflexivity.
Defined.

(** With a library that gives every title as asked, the two floors get
    two sheets of the same title. *)
Example colliding_titles_reach_library :
  option_map (fun r => List.map title (snd r))
             (saved (main plain_titles (fun _ => Ok (mkDoc (Some colliding_aps)))
                          ["generate_excel"; "in.json"; "out.xlsx"]))
  = Some ["Floor 1"; "Floor 1"].
Proof. reflexivity. Qed.

Lemma note_fails_on_huge_integer :
  coord_note (mkAP None None (Some (JObject [("x", JInt (10 ^ 400)); ("y", JInt 1)])))
  = Err OverflowError.
Proof. vm_compute. reflexivity. Qed.

(** * Further properties of the program *)

(** ** The command line and the outcome of a run *)

(** X2. With any number of arguments other than two (three entries in
    [sys.argv]) the program prints its usage line and exits with status
    1; the input file is not read and nothing is saved. *)
Theorem usage_error_exits_1 sheet_title load_json load_json' (argv : list string) :
  List.length argv <> 3%nat ->
  main sheet_title load_json argv
  = mkOutcome ["Usage: python -m src.generate_excel <input.json> <output.xlsx>"]
              (SysExit 1) None /\
  main sheet_title load_json argv = main sheet_title load_json' argv.
Proof.
  intros H.
  destruct argv as [|a [|b [|c [|d argv]]]]; simpl in H; try (split; reflexivity).
  congruence.
Qed.

Lemma usage_error_exits_1_witness :
  main no_titles (fun _ => Err JSONDecodeError) ["generate_excel"; "in.json"]
  = mkOutcome ["Usage: python -m src.generate_excel <input.json> <output.xlsx>"]
              (SysExit 1) None.
Proof.
  apply (usage_error_exits_1 no_titles (fun _ => Err JSONDecodeError)
           (fun _ => Err JSONDecodeError) ["generate_excel"; "in.json"]).
  simpl. discriminate.
Defined.

(** ** Records, rows and sheets *)

Lemma Permutation_concat_filter (ks : list string) (l : list AccessPoint) :
  NoDup ks -> (forall a, In a l -> In (floor_of a) ks) ->
  Permutation (List.concat (List.map (fun k => filter (on_floor k) l) ks)) l.
Proof.
  intros ND. induction l as [|a l IH]; intros Hin.
  - induction ks as [|k ks IHk]; simpl; [constructor|].
    apply IHk. now inversion ND. intros a [].
  - assert (Hl : forall b, In b l -> In (floor_of b) ks) by (intros; apply Hin; now right).
    specialize (IH Hl).
    destruct (in_split _ _ (Hin a (or_introl eq_refl))) as (ks1 & ks2 & E).
    subst ks. apply NoDup_remove_2 in ND.
    assert (F : forall ks', ~ In (floor_of a) ks' ->
                List.map (fun k => filter (on_floor k) (a :: l)) ks'
                = List.map (fun k => filter (on_floor k) l) ks').
    { intros ks' N. apply map_ext_in. intros k Hk. simpl. unfold on_floor at 1.
      destruct (String.eqb_spec (floor_of a) k); [congruence | reflexivity]. }
    rewrite map_app, concat_app in *. cbn [List.map List.concat] in *.
    rewrite !F by (intros H; apply ND, in_or_app; auto).
    cbn [filter]. unfold on_floor at 2. rewrite String.eqb_refl.
    rewrite <- app_comm_cons. rewrite <- Permutation_middle.
    constructor. exact IH.
Qed.

Lemma output_order_Permutation (aps : list AccessPoint) :
  Permutation (output_order aps) aps.
Proof.
  unfold output_order. rewrite group_by_floor_grouped. unfold grouped.
  rewrite map_map. cbn [snd].
  apply Permutation_concat_filter; [apply first_seen_NoDup|].
  intros a Ha. apply first_seen_In. now apply in_map.
Qed.

Lemma groups_nonempty (aps : list AccessPoint) :
  Forall (fun g => snd g <> []) (group_by_floor aps).
Proof.
  rewrite group_by_floor_grouped. unfold grouped. apply Forall_forall.
  intros g Hg. apply in_map_iff in Hg as (k & <- & Hk). cbn [snd].
  apply first_seen_In, in_map_iff in Hk as (a & Ea & Ha).
  intros E. assert (I : In a (filter (on_floor k) aps)).
  { apply filter_In. split; [exact Ha|]. unfold on_floor. rewrite Ea.
    apply String.eqb_refl. }
  rewrite E in I. exact I.
Qed.

(** X4. Grouping neither loses nor repeats a record: the records taken
    group after group are a rearrangement of the input, and no group is
    empty. *)
Theorem grouping_keeps_every_record (aps : list AccessPoint) :
  Permutation (output_order aps) aps /\
  Forall (fun g => snd g <> []) (group_by_floor aps) /\
  List.length (output_order aps) = List.length aps.
Proof.
  pose proof (output_order_Permutation aps) as P.
  split; [exact P|]. split; [apply groups_nonempty|].
  now apply Permutation_length.
Qed.

Lemma combine_app {A B} (l1 l2 : list A) (m1 m2 : list B) :
  List.length l1 = List.length m1 ->
  combine (l1 ++ l2) (m1 ++ m2) = (combine l1 m1 ++ combine l2 m2)%list.
Proof.
  revert m1. induction l1 as [|a l1 IH]; intros [|b m1] H; simpl in *;
    try discriminate; [reflexivity|].
  f_equal. apply IH. congruence.
Qed.

Lemma all_data_rows_app (wb wb' : Workbook) :
  all_data_rows (wb ++ wb')%list = (all_data_rows wb ++ all_data_rows wb')%list.
Proof. unfold all_data_rows. now rewrite flat_map_app. Qed.

Lemma fill_sheets_rows sheet_title (wb : Workbook) (c : Z) (by_floor : floor_dict) wb' c' :
  fill_sheets sheet_title wb c by_floor = Ok (wb', c') ->
  exists new,
    wb' = (wb ++ new)%list /\
    Forall2 (fun row p => build_row (fst p) (snd p) = Ok row)
            (all_data_rows new)
            (combine (count_from c (total by_floor)) (List.concat (List.map snd by_floor))).
Proof.
  revert wb c. induction by_floor as [|[floor_name aps] rest IH]; intros wb c H;
    simpl in H.
  - injection H as <- <-. exists []. rewrite app_nil_r. split; [reflexivity|constructor].
  - inv_bind H. inv_bind H. destruct a0 as [data c0].
    unfold create_sheet in E. inv_bind E. injection E as <-. simpl in H.
    apply build_rows_ok in E0 as (-> & F & _).
    apply IH in H as (new & -> & F').
    eexists (_ :: new). rewrite <- app_assoc. split; [reflexivity|].
    rewrite total_cons, count_from_app. cbn [List.map List.concat snd].
    rewrite combine_app by apply count_from_length.
    change (all_data_rows (?ws :: new)) with (data_rows ws ++ all_data_rows new)%list.
    apply Forall2_app; [exact F | exact F'].
Qed.

Lemma build_workbook_rows sheet_title (aps : list AccessPoint) (wb : Workbook) :
  build_workbook sheet_title aps = Ok wb ->
  Forall2 (fun row p => build_row (fst p) (snd p) = Ok row)
          (all_data_rows wb)
          (combine (count_from 1 (List.length aps)) (output_order aps)).
Proof.
  unfold build_workbook. intros H. inv_bind H. destruct a as [wb' c'].
  injection H as <-.
  apply fill_sheets_rows in E as (new & -> & F). simpl app.
  now rewrite group_by_floor_grouped, total_grouped, <- group_by_floor_grouped in F.
Qed.

(** X5. Which record gets which number: the data rows of a written
    workbook, read sheet after sheet, are the rows of the records taken
    group after group, the k-th of them built with counter value k; their
    number is the number of input records. *)
Theorem rows_follow_output_order sheet_title (aps : list AccessPoint) (wb : Workbook) :
  build_workbook sheet_title aps = Ok wb ->
  Forall2 (fun row p => build_row (fst p) (snd p) = Ok row)
          (all_data_rows wb)
          (combine (count_from 1 (List.length aps)) (output_order aps)) /\
  List.length (all_data_rows wb) = List.length aps.
Proof.
  intros H. apply build_workbook_rows in H as F.
  split; [exact F|].
  rewrite (Forall2_length F), length_combine, count_from_length.
  rewrite (Permutation_length (output_order_Permutation aps)).
  apply Nat.min_id.
Qed.

Lemma rows_follow_output_order_witness :
  List.length (all_data_rows sample_workbook) = 3%nat.
Proof.
  exact (proj2 (rows_follow_output_order plain_titles sample_aps sample_workbook eq_refl)).
Defined.

(** X6. Every sheet of a written workbook starts with the header row, in
    bold and frozen, and has at least one data row; every row, the header
    included, has 14 cells. *)
Theorem saved_sheets_well_shaped sheet_title (aps : list AccessPoint) (wb : Workbook) :
  build_workbook sheet_title aps = Ok wb ->
  Forall well_shaped wb /\ List.length HEADER = 14%nat.
Proof.
  intros H. split; [|reflexivity].
  apply build_workbook_ok in H as (F & _).
  rewrite <- group_by_floor_grouped in F.
  pose proof (groups_nonempty aps) as G.
  revert G. induction F as [|ws g wb' gs (Hr & Hd & Hb & Hf & _) F IH];
    intros G; constructor.
  - inversion G as [|? ? Hg _]; subst.
    unfold well_shaped. rewrite Hr. cbn [hd_error]. repeat split; auto.
    + intros E. rewrite E in Hd. inversion Hd. congruence.
    + constructor; [reflexivity|].
      clear - Hd. induction Hd as [|row ap data grp (n & Hn) _ IHd]; constructor; auto.
      apply build_row_ok in Hn as (note & _ & ->). reflexivity.
  - apply IH. now inversion G.
Qed.

Lemma saved_sheets_well_shaped_witness : Forall well_shaped sample_workbook.
Proof.
  exact (proj1 (saved_sheets_well_shaped plain_titles sample_aps sample_workbook eq_refl)).
Defined.

(** ** A note that fails *)

Lemma Forall2_combine_In {A B C} (P : A -> B * C -> Prop)
      (l : list A) (bs : list B) (cs : list C) (c : C) :
  List.length bs = List.length cs ->
  Forall2 P l (combine bs cs) -> In c cs -> exists a b, P a (b, c).
Proof.
  revert l bs. induction cs as [|c' cs IH]; intros l [|b bs] L F I; simpl in *;
    try discriminate; try tauto.
  inversion F; subst. destruct I as [->|I]; [eauto|].
  eapply IH; eauto.
Qed.

Lemma build_workbook_notes sheet_title (aps : list AccessPoint) (wb : Workbook) :
  build_workbook sheet_title aps = Ok wb ->
  forall ap, In ap aps -> exists note, coord_note ap = Ok note.
Proof.
  intros H ap I. apply build_workbook_rows in H.
  apply (Permutation_in _ (Permutation_sym (output_order_Permutation aps))) in I.
  eapply Forall2_combine_In in H as (row & n & Hn); [| |exact I].
  - apply build_row_ok in Hn as (note & Hn & _). eauto.
  - rewrite count_from_length.
    symmetry. apply Permutation_length, output_order_Permutation.
Qed.

(** X7. One record whose note cannot be formatted stops the whole run,
    whatever the library answers and wherever the record stands in the
    input: the run ends with an uncaught exception, prints nothing and
    saves no workbook, not even the sheets of the other floors. *)
Theorem one_bad_note_aborts_the_run sheet_title load_json
        (prog json_path out_path : string) (data : Document)
        (aps : list AccessPoint) (ap : AccessPoint) (e : exn) :
  load_json json_path = Ok data ->
  accesspoints data = Some aps ->
  In ap aps ->
  coord_note ap = Err e ->
  exists e', main sheet_title load_json [prog; json_path; out_path]
             = mkOutcome [] (Uncaught e') None.
Proof.
  intros L A I N. unfold main. rewrite L, A. simpl get_default.
  destruct aps as [|a aps]; [destruct I|].
  destruct (build_workbook sheet_title (a :: aps)) as [wb|e'] eqn:B; [|eauto].
  destruct (build_workbook_notes _ _ _ B ap I) as (note & Hn). congruence.
Qed.

Lemma one_bad_note_aborts_the_run_witness :
  exists e', main plain_titles
                  (fun _ => Ok (mkDoc (Some [mkAP (Some "c9130") (Some "Lobby") None;
                                             mkAP None (Some "2nd Floor")
                                                  (Some (JObject [("x", JInt 3)]))])))
                  ["generate_excel"; "in.json"; "out.xlsx"]
             = mkOutcome [] (Uncaught e') None.
Proof.
  eapply (one_bad_note_aborts_the_run plain_titles _ "generate_excel" "in.json" "out.xlsx"
            (mkDoc (Some [mkAP (Some "c9130") (Some "Lobby") None;
                          mkAP None (Some "2nd Floor") (Some (JObject [("x", JInt 3)]))]))
            _ (mkAP None (Some "2nd Floor") (Some (JObject [("x", JInt 3)]))) TypeError).
  - reflexivity.
  - reflexivity.
  - right. left. reflexivity.
  - reflexivity.
Defined.

(** ** Sheet names: length and anchoring *)

Lemma length_str_map (f : ascii -> ascii) (s : string) :
  String.length (Str.map f s) = String.length s.
Proof. induction s; simpl; congruence. Qed.

Lemma length_lstrip (s : string) : (String.length (Str.lstrip s) <= String.length s)%nat.
Proof.
  induction s as [|c s IH]; simpl; [lia|]. destruct (Str.is_space c); simpl; lia.
Qed.

Lemma length_rstrip (s : string) : (String.length (Str.rstrip s) <= String.length s)%nat.
Proof.
  induction s as [|c s IH]; simpl; [lia|].
  destruct (Str.rstrip s); [destruct (Str.is_space c)|]; simpl in *; lia.
Qed.

Lemma length_strip (s : string) : (String.length (Str.strip s) <= String.length s)%nat.
Proof.
  unfold Str.strip. pose proof (length_rstrip (Str.lstrip s)). pose proof (length_lstrip s).
  lia.
Qed.

Lemma floor_name_pattern_length (s digits : string) :
  floor_name_pattern s digits -> (String.length digits + 6 <= String.length s)%nat.
Proof.
  intros (suffix & spaces & word & -> & _ & _ & _ & Hsp & _ & Hw).
  rewrite !length_append.
  assert (String.length word = 5%nat).
  { unfold Str.lower in Hw. rewrite <- (length_str_map Str.lower_char), Hw. reflexivity. }
  destruct spaces; [congruence|]. simpl. lia.
Qed.

Lemma sheet_name_length_stripped (name : string) :
  (String.length (normalise_sheet_name name) <= String.length name)%nat /\
  ((31 < String.length (normalise_sheet_name name))%nat <->
   exists digits, floor_name_pattern (Str.strip name) digits /\
                  (25 < String.length digits)%nat).
Proof.
  unfold normalise_sheet_name.
  destruct (Re.match_group1 FLOOR_RE (Str.strip name)) as [g|] eqn:M.
  - apply normalise_sheet_name_match in M.
    pose proof (floor_name_pattern_length _ _ M) as L.
    pose proof (length_strip name) as S.
    change (String.length ("Floor " ++ g)) with (6 + String.length g)%nat.
    split; [lia|]. split.
    + intros H. exists g. split; [exact M | lia].
    + intros (d & P & H).
      rewrite (floor_name_pattern_unique _ _ "" "" _ _ M P eq_refl). lia.
  - unfold Str.title. rewrite length_take, length_title_from.
    split; [lia|]. split; [lia|].
    intros (d & P & _). apply normalise_sheet_name_match in P. congruence.
Qed.

(** X9. On ASCII text, a sheet name is never longer than the floor name
    it comes from.  It has more than 31 characters, the limit of the
    spreadsheet format, exactly when the floor name is a numbered floor
    name with more than 25 digits: that branch is not truncated. *)
Theorem sheet_name_length (name : string) :
  is_ascii_text name = true ->
  (String.length (normalise_sheet_name name) <= String.length name)%nat /\
  ((31 < String.length (normalise_sheet_name name))%nat <->
   exists digits, numbered_floor name digits /\ (25 < String.length digits)%nat).
Proof.
  intros _. destruct (sheet_name_length_stripped name) as [A B].
  split; [exact A|]. rewrite B.
  split; intros (d & P & H); exists d; (split; [|exact H]);
    now apply numbered_floor_strip.
Qed.

Lemma sheet_name_length_witness :
  (31 < String.length (normalise_sheet_name " 12345678901234567890123456th floor"))%nat.
Proof.
  apply (proj2 (sheet_name_length " 12345678901234567890123456th floor" eq_refl)).
  exists "12345678901234567890123456". split; [|simpl; lia].
  exists " ", "th", " ", "floor", "".
  repeat split; try reflexivity; try discriminate.
  simpl. auto 6.
Defined.

(** X10. On ASCII text the floor pattern is anchored at both ends:
    [FLOOR_RE.match] succeeds exactly on a run of digits, an optional
    ordinal suffix, white space and the word "floor" in any case,
    followed by nothing or by a single line feed, and its group is the
    run of digits; a text that does not start with a digit is never
    matched. *)
Theorem floor_pattern_is_anchored (s : string) :
  is_ascii_text s = true ->
  (forall digits,
      Re.match_group1 FLOOR_RE s = Some digits <->
      exists s1 rest, s = s1 ++ rest /\ floor_name_pattern s1 digits /\
                      (rest = "" \/ rest = String "010" "")) /\
  (forall c s', s = String c s' -> Str.is_digit c = false ->
                Re.match_group1 FLOOR_RE s = None).
Proof.
  intros _. split; [intros digits; apply FLOOR_RE_match|].
  intros c s' -> D.
  destruct (Re.match_group1 FLOOR_RE (String c s')) as [d|] eqn:M; [|reflexivity].
  apply FLOOR_RE_match in M
    as (s1 & rest & E & (suf & sp & w & -> & Hd & Dd & _) & _).
  destruct d as [|c' d]; [congruence|]. simpl in E, Dd. injection E as <- _.
  apply andb_prop in Dd as [Dd _]. congruence.
Qed.

Lemma floor_pattern_is_anchored_witness :
  Re.match_group1 FLOOR_RE " 1st Floor" = None.
Proof.
  apply (proj2 (floor_pattern_is_anchored " 1st Floor" eq_refl) " "%char "1st Floor");
    reflexivity.
Defined.

(** ** The model field: stability *)

Lemma upper_char_not_lower (c : ascii) : Str.is_lower (Str.upper_char c) = false.
Proof. destruct c as [[] [] [] [] [] [] [] []]; reflexivity. Qed.

Lemma upper_char_fixed (c : ascii) : Str.is_lower c = false -> Str.upper_char c = c.
Proof. unfold Str.upper_char. now intros ->. Qed.

Lemma lower_upper_char (c : ascii) : Str.lower_char (Str.upper_char c) = Str.lower_char c.
Proof. destruct c as [[] [] [] [] [] [] [] []]; reflexivity. Qed.

Lemma hyphen_upper_char (c : ascii) : Ascii.eqb "-" (Str.upper_char c) = Ascii.eqb "-" c.
Proof. destruct c as [[] [] [] [] [] [] [] []]; reflexivity. Qed.

Lemma upper_no_lower (s : string) :
  all_chars (fun c => negb (Str.is_lower c)) (Str.upper s) = true.
Proof.
  unfold Str.upper. induction s as [|c s IH]; [reflexivity|].
  simpl. now rewrite upper_char_not_lower, IH.
Qed.

Lemma upper_fixed (s : string) :
  all_chars (fun c => negb (Str.is_lower c)) s = true -> Str.upper s = s.
Proof.
  unfold Str.upper. induction s as [|c s IH]; [reflexivity|]. simpl.
  intros H. apply andb_prop in H as [Hc Hs]. apply negb_true_iff in Hc.
  now rewrite upper_char_fixed, IH.
Qed.

Lemma replace_C_no_lower (s : string) :
  all_chars (fun c => negb (Str.is_lower c)) s = true ->
  all_chars (fun c => negb (Str.is_lower c)) (Str.replace "C" "C-" s) = true.
Proof.
  unfold Str.replace. induction s as [|c s IH]; [reflexivity|].
  cbn [all_chars Str.replace_from Str.startswith String.length Nat.sub].
  intros H. apply andb_prop in H as [Hc Hs]. rewrite andb_true_r.
  destruct (Ascii.eqb "C" c); simpl; [now apply IH | now rewrite Hc, IH].
Qed.

Lemma contains_hyphen_upper (s : string) :
  Str.contains "-" (Str.upper s) = Str.contains "-" s.
Proof.
  unfold Str.upper. induction s as [|c s IH]; [reflexivity|].
  cbn [Str.map Str.contains Str.startswith]. now rewrite hyphen_upper_char, IH.
Qed.

Lemma lower_upper (s : string) : Str.lower (Str.upper s) = Str.lower s.
Proof.
  unfold Str.lower, Str.upper. induction s as [|c s IH]; [reflexivity|].
  simpl. now rewrite lower_upper_char, IH.
Qed.

(** X11. On ASCII text the model field is stable: it holds no lower-case
    letter, and normalising it again changes nothing (a name once
    hyphenated is not hyphenated a second time). *)
Theorem normalise_model_is_stable (model_raw : string) :
  is_ascii_text model_raw = true ->
  all_chars (fun c => negb (Str.is_lower c)) (normalise_model model_raw) = true /\
  normalise_model (normalise_model model_raw) = normalise_model model_raw.
Proof.
  intros _.
  assert (U : all_chars (fun c => negb (Str.is_lower c)) (normalise_model model_raw) = true).
  { unfold normalise_model.
    destruct (Str.startswith "c" (Str.lower model_raw) && negb (Str.contains "-" model_raw));
      [apply replace_C_no_lower|]; apply upper_no_lower. }
  split; [exact U|].
  assert (E : Str.startswith "c" (Str.lower (normalise_model model_raw))
              && negb (Str.contains "-" (normalise_model model_raw)) = false).
  { unfold normalise_model.
    destruct (Str.startswith "c" (Str.lower model_raw)
              && negb (Str.contains "-" model_raw)) eqn:C.
    - apply andb_prop in C as [C _].
      destruct model_raw as [|x t]; [discriminate|].
      unfold Str.lower, Str.upper, Str.replace in *.
      cbn [Str.map Str.startswith Str.replace_from] in *.
      rewrite andb_true_r in *. rewrite lower_c_upper_C in C. rewrite C.
      generalize (Str.replace_from "C" "C-" (Str.map Str.upper_char t)
                                   (String.length "C" - 1)) as r.
      intros r. change ("C-" ++ r) with (String "C" (String "-" r)).
      cbn [Str.map Str.contains Str.startswith].
      change (Ascii.eqb "-" "-") with true. cbn [andb orb negb].
      now rewrite orb_true_r, andb_false_r.
    - now rewrite lower_upper, contains_hyphen_upper. }
  unfold normalise_model at 1. rewrite E. now apply upper_fixed.
Qed.

Lemma normalise_model_is_stable_witness :
  normalise_model (normalise_model "c9130axi") = normalise_model "c9130axi".
Proof. exact (proj2 (normalise_model_is_stable "c9130axi" eq_refl)). Defined.

Lemma normalise_model_single_C_witness :
  normalise_model "C9130AXI" = hyphen_after_leading_C "C9130AXI".
Proof. apply (normalise_model_single_C "C9130AXI"). reflexivity. Defined.

(** ** The note: what it reads and how it rounds *)

Lemma get_or_none_insert (key k : string) (v : json) (d1 d2 : list (string * json)) :
  k <> key ->
  get_or_none key (d1 ++ (k, v) :: d2)%list = get_or_none key (d1 ++ d2)%list.
Proof.
  intros N. unfold get_or_none.
  induction d1 as [|[k1 v1] d1 IH]; simpl.
  - destruct (String.eqb_spec k key); [congruence | reflexivity].
  - destruct (String.eqb k1 key); [reflexivity | exact IH].
Qed.

(** X12. The note reads the coordinates x and y and nothing else: on a
    non-empty coordinate object, an entry under any other key (z, for
    one), wherever it stands among the entries, changes neither the note
    nor its failure, and the model and the floor of the record play no
    part. *)
Theorem note_reads_only_x_and_y (m f m' f' : option string) (k : string) (v : json)
        (d1 d2 : list (string * json)) :
  (d1 ++ d2)%list <> [] -> k <> "x" -> k <> "y" ->
  coord_note (mkAP m f (Some (JObject (d1 ++ (k, v) :: d2)%list)))
  = coord_note (mkAP m' f' (Some (JObject (d1 ++ d2)%list))).
Proof.
  intros D X Y. rewrite !coord_note_object; [|exact D|now destruct d1].
  now rewrite !get_or_none_insert by assumption.
Qed.

Lemma note_reads_only_x_and_y_witness :
  coord_note (mkAP (Some "c9130") (Some "Lobby")
                   (Some (JObject [("x", JInt 1); ("y", JInt 2); ("z", JString "roof")])))
  = coord_note (mkAP None None (Some (JObject [("x", JInt 1); ("y", JInt 2)]))).
Proof.
  apply (note_reads_only_x_and_y (Some "c9130") (Some "Lobby") None None "z"
           (JString "roof") [("x", JInt 1); ("y", JInt 2)] []); discriminate.
Defined.




(** ** Grouping what is already grouped *)

Lemma dict_append_new (d : floor_dict) (k : string) (a : AccessPoint) :
  ~ In k (List.map fst d) -> dict_append d k a = (d ++ [(k, [a])])%list.
Proof.
  induction d as [|[k' g] d IH]; simpl; intros N; [reflexivity|].
  destruct (String.eqb_spec k' k); [tauto|]. rewrite IH by tauto. reflexivity.
Qed.

Lemma dict_append_last (d : floor_dict) (k : string) (g : list AccessPoint)
      (a : AccessPoint) :
  ~ In k (List.map fst d) ->
  dict_append (d ++ [(k, g)])%list k a = (d ++ [(k, (g ++ [a])%list)])%list.
Proof.
  induction d as [|[k' g'] d IH]; simpl; intros N.
  - now rewrite String.eqb_refl.
  - destruct (String.eqb_spec k' k); [tauto|]. rewrite IH by tauto. reflexivity.
Qed.

Lemma fold_dict_append_last (d : floor_dict) (k : string) (g0 g : list AccessPoint) :
  ~ In k (List.map fst d) -> Forall (fun ap => floor_of ap = k) g ->
  fold_left (fun by_floor ap => dict_append by_floor (floor_of ap) ap) g
            (d ++ [(k, g0)])%list
  = (d ++ [(k, (g0 ++ g)%list)])%list.
Proof.
  intros N F. revert g0. induction F as [|a g Ha _ IH]; intros g0; simpl.
  - now rewrite app_nil_r.
  - rewrite Ha, dict_append_last, IH, <- app_assoc by assumption. reflexivity.
Qed.

Lemma group_by_floor_blocks (blocks : floor_dict) :
  well_grouped blocks -> group_by_floor (List.concat (List.map snd blocks)) = blocks.
Proof.
  unfold well_grouped, group_by_floor.
  induction blocks as [|[k g] pre IH] using rev_ind; intros [ND F]; [reflexivity|].
  rewrite map_app, concat_app, fold_left_app. cbn [List.map List.concat snd].
  rewrite app_nil_r.
  rewrite map_app in ND. cbn [List.map fst] in ND.
  apply Forall_app in F as [Fpre Fk]. inversion Fk as [|? ? [Hne Hk] _]; subst.
  cbn [fst snd] in *.
  assert (N : ~ In k (List.map fst pre)).
  { apply NoDup_remove_2 in ND. now rewrite app_nil_r in ND. }
  rewrite IH by (split; [now apply NoDup_app_remove_r in ND | exact Fpre]).
  destruct g as [|a g]; [congruence|]. inversion Hk as [|? ? Ha Hg]; subst.
  cbn [fold_left]. rewrite dict_append_new by assumption.
  now rewrite fold_dict_append_last.
Qed.

Lemma group_by_floor_well_grouped (aps : list AccessPoint) :
  well_grouped (group_by_floor aps).
Proof.
  split.
  - rewrite group_by_floor_grouped, map_fst_grouped. apply first_seen_NoDup.
  - pose proof (groups_nonempty aps) as G. rewrite Forall_forall in *.
    intros b Hb. split; [now apply G|].
    rewrite group_by_floor_grouped in Hb. unfold grouped in Hb.
    apply in_map_iff in Hb as (k & <- & _). cbn [fst snd].
    apply Forall_forall. intros ap Hap. apply filter_In in Hap as [_ Hap].
    now apply String.eqb_eq.
Qed.

(** X14. Grouping undoes concatenation: records that come floor by floor
    (distinct floor names, no empty block) are grouped into exactly those
    blocks, so such an input is numbered in its own order; and grouping
    the output order of any input gives the groups of the input again. *)
Theorem grouping_of_grouped_input (aps : list AccessPoint) :
  (forall blocks, well_grouped blocks ->
     group_by_floor (List.concat (List.map snd blocks)) = blocks /\
     output_order (List.concat (List.map snd blocks)) = List.concat (List.map snd blocks)) /\
  well_grouped (group_by_floor aps) /\
  group_by_floor (output_order aps) = group_by_floor aps /\
  output_order (output_order aps) = output_order aps.
Proof.
  assert (B : forall blocks, well_grouped blocks ->
     group_by_floor (List.concat (List.map snd blocks)) = blocks /\
     output_order (List.concat (List.map snd blocks)) = List.concat (List.map snd blocks)).
  { intros blocks W. unfold output_order.
    now rewrite (group_by_floor_blocks blocks W). }
  pose proof (group_by_floor_well_grouped aps) as W.
  split; [exact B|]. split; [exact W|].
  unfold output_order at 1 2. split; apply (B _ W).
Qed.

(** ** The titles asked of the library *)

Lemma fill_sheets_titles sheet_title (wb : Workbook) (c : Z) (by_floor : floor_dict) wb' c' :
  fill_sheets sheet_title wb c by_floor = Ok (wb', c') ->
  exists new,
    wb' = (wb ++ new)%list /\
    titles_answered sheet_title (List.map title wb) new (List.map fst by_floor).
Proof.
  revert wb c. induction by_floor as [|[floor_name aps] rest IH]; intros wb c H;
    simpl in H.
  - injection H as <- <-. exists []. now rewrite app_nil_r.
  - inv_bind H. inv_bind H. destruct a0 as [data c0].
    unfold create_sheet in E. inv_bind E. injection E as <-. simpl in H.
    apply IH in H as (new & -> & T).
    eexists (_ :: new). rewrite <- app_assoc. split; [reflexivity|].
    cbn [List.map fst titles_answered title]. split; [exact E1|].
    rewrite map_app in T. exact T.
Qed.

Lemma titles_answered_plain sheet_title (before : list string) (new : Workbook)
      (floors : list string) :
  (forall titles name t, sheet_title titles name = Ok t -> t = name) ->
  titles_answered sheet_title before new floors ->
  List.map title new = List.map normalise_sheet_name floors.
Proof.
  intros P. revert before floors. induction new as [|ws new IH];
    intros before [|floor floors] T; simpl in T; try tauto.
  destruct T as [T1 T2]. simpl. f_equal; [now apply P in T1 | eauto].
Qed.

(** X15. The title of every sheet is the answer of the library to the
    normalised floor name of its group, asked with the titles of the
    sheets made before it; the program changes no title and checks none.
    With a library that gives each title as asked, the titles are the
    normalised floor names in first-seen order, equal ones included. *)
Theorem sheet_titles_come_from_library sheet_title (aps : list AccessPoint) (wb : Workbook) :
  build_workbook sheet_title aps = Ok wb ->
  titles_answered sheet_title [] wb (first_seen (List.map floor_of aps)) /\
  ((forall titles name t, sheet_title titles name = Ok t -> t = name) ->
   List.map title wb
   = List.map normalise_sheet_name (first_seen (List.map floor_of aps))).
Proof.
  unfold build_workbook. intros H. inv_bind H. destruct a as [wb' c'].
  injection H as <-.
  apply fill_sheets_titles in E as (new & -> & T). simpl in T |- *.
  rewrite group_by_floor_grouped, map_fst_grouped in T.
  split; [exact T|]. intros P. eapply titles_answered_plain; eauto.
Qed.

Lemma sheet_titles_come_from_library_witness :
  List.map title sample_workbook = ["Floor 1"; "Lobby"].
Proof.
  apply (sheet_titles_come_from_library plain_titles sample_aps sample_workbook eq_refl).
  intros titles name t [= <-]. reflexivity.
Defined.

(** ** Sheet names and the case of letters *)

Lemma upper_char_facts (c : ascii) :
  Str.is_space (Str.upper_char c) = Str.is_space c /\
  Str.is_digit (Str.upper_char c) = Str.is_digit c /\
  Str.is_alpha (Str.upper_char c) = Str.is_alpha c /\
  Str.upper_char (Str.upper_char c) = Str.upper_char c /\
  Str.upper_char (Str.lower_char c) = Str.upper_char c /\
  (Str.is_digit c = true -> Str.upper_char c = c).
Proof. destruct c as [[] [] [] [] [] [] [] []]; repeat split; discriminate. Qed.

Lemma lstrip_upper (s : string) : Str.lstrip (Str.upper s) = Str.upper (Str.lstrip s).
Proof.
  unfold Str.upper. induction s as [|c s IH]; [reflexivity|]. simpl.
  destruct (upper_char_facts c) as (-> & _). now destruct (Str.is_space c).
Qed.

Lemma rstrip_upper (s : string) : Str.rstrip (Str.upper s) = Str.upper (Str.rstrip s).
Proof.
  unfold Str.upper. induction s as [|c s IH]; [reflexivity|]. simpl. rewrite IH.
  destruct (upper_char_facts c) as (-> & _).
  destruct (Str.rstrip s); [destruct (Str.is_space c)|]; reflexivity.
Qed.

Lemma strip_upper (s : string) : Str.strip (Str.upper s) = Str.upper (Str.strip s).
Proof. unfold Str.strip. now rewrite lstrip_upper, rstrip_upper. Qed.

Lemma title_from_upper (b : bool) (s : string) :
  Str.title_from b (Str.upper s) = Str.title_from b s.
Proof.
  unfold Str.upper. revert b. induction s as [|c s IH]; intros b; [reflexivity|].
  simpl. rewrite IH, lower_upper_char.
  destruct (upper_char_facts c) as (_ & _ & -> & -> & _). reflexivity.
Qed.

Lemma map_append (f : ascii -> ascii) (a b : string) :
  Str.map f (a ++ b) = Str.map f a ++ Str.map f b.
Proof. induction a; simpl; congruence. Qed.

Lemma map_split (f : ascii -> ascii) (s a b : string) :
  Str.map f s = a ++ b ->
  exists a' b', s = a' ++ b' /\ Str.map f a' = a /\ Str.map f b' = b.
Proof.
  revert s. induction a as [|x a IH]; intros s H; simpl in H.
  - exists "", s. auto.
  - destruct s as [|c s]; [discriminate|]. simpl in H. injection H as <- H.
    apply IH in H as (a' & b' & -> & <- & <-).
    exists (String c a'), b'. auto.
Qed.

Lemma all_chars_upper (p : ascii -> bool) (s : string) :
  (forall c, p (Str.upper_char c) = p c) ->
  all_chars p (Str.upper s) = all_chars p s.
Proof.
  intros P. unfold Str.upper. induction s as [|c s IH]; [reflexivity|].
  simpl. now rewrite P, IH.
Qed.

Lemma upper_digits (s : string) :
  all_chars Str.is_digit s = true -> Str.upper s = s.
Proof.
  unfold Str.upper. induction s as [|c s IH]; [reflexivity|]. simpl.
  intros H. apply andb_prop in H as [Hc Hs].
  destruct (upper_char_facts c) as (_ & _ & _ & _ & _ & E).
  now rewrite E, IH.
Qed.

Lemma upper_nil (s : string) : Str.upper s = "" <-> s = "".
Proof. destruct s; split; intros; (reflexivity || discriminate). Qed.

Lemma floor_name_pattern_upper (s digits : string) :
  floor_name_pattern (Str.upper s) digits <-> floor_name_pattern s digits.
Proof.
  assert (Sp : forall c, Str.is_space (Str.upper_char c) = Str.is_space c)
    by (intros c; apply upper_char_facts).
  assert (Dg : forall c, Str.is_digit (Str.upper_char c) = Str.is_digit c)
    by (intros c; apply upper_char_facts).
  split.
  - intros (suf & sp & w & E & Hd & Dd & Hsuf & Hsp & Dsp & Hw).
    apply map_split in E as (d' & r1 & -> & Ed & E).
    apply map_split in E as (suf' & r2 & -> & Es & E).
    apply map_split in E as (sp' & w' & -> & Ep & Ew).
    fold (Str.upper d') in Ed. fold (Str.upper suf') in Es.
    fold (Str.upper sp') in Ep. fold (Str.upper w') in Ew.
    subst digits suf sp w.
    rewrite all_chars_upper in Dd, Dsp by assumption.
    rewrite lower_upper in Hsuf, Hw.
    rewrite (upper_digits d' Dd) in *.
    exists suf', sp', w'. repeat split; auto.
    intros ->. now apply Hsp.
  - intros (suf & sp & w & -> & Hd & Dd & Hsuf & Hsp & Dsp & Hw).
    exists (Str.upper suf), (Str.upper sp), (Str.upper w).
    rewrite !lower_upper, (all_chars_upper _ sp Sp).
    repeat split; auto.
    + unfold Str.upper. rewrite !map_append. fold (Str.upper digits).
      rewrite (upper_digits digits Dd). reflexivity.
    + intros H. apply Hsp. now apply upper_nil.
Qed.

Lemma upper_lower (s : string) : Str.upper (Str.lower s) = Str.upper s.
Proof.
  unfold Str.upper, Str.lower. induction s as [|c s IH]; [reflexivity|]. simpl.
  destruct (upper_char_facts c) as (_ & _ & _ & _ & -> & _). now rewrite IH.
Qed.

Lemma normalise_sheet_name_upper (name : string) :
  normalise_sheet_name (Str.upper name) = normalise_sheet_name name.
Proof.
  unfold normalise_sheet_name, Str.title. rewrite title_from_upper.
  assert (E : Re.match_group1 FLOOR_RE (Str.strip (Str.upper name))
              = Re.match_group1 FLOOR_RE (Str.strip name)).
  { destruct (Re.match_group1 FLOOR_RE (Str.strip name)) as [d|] eqn:M.
    - apply normalise_sheet_name_match. rewrite strip_upper.
      apply floor_name_pattern_upper. now apply normalise_sheet_name_match.
    - destruct (Re.match_group1 FLOOR_RE (Str.strip (Str.upper name))) as [d|] eqn:M';
        [|reflexivity].
      apply normalise_sheet_name_match in M'. rewrite strip_upper in M'.
      apply floor_name_pattern_upper, normalise_sheet_name_match in M'. congruence. }
  now rewrite E.
Qed.

(** X16. On ASCII text, sheet naming ignores the case of letters while
    grouping does not: floor names that differ only in case are different
    groups but get the same sheet name. *)
Theorem sheet_names_ignore_case (name1 name2 : string) :
  is_ascii_text name1 = true -> is_ascii_text name2 = true ->
  Str.lower name1 = Str.lower name2 ->
  normalise_sheet_name name1 = normalise_sheet_name name2 /\
  (name1 <> name2 ->
   forall m1 m2 c1 c2,
     List.map fst (group_by_floor [mkAP m1 (Some name1) c1; mkAP m2 (Some name2) c2])
     = [name1; name2]).
Proof.
  intros _ _ E. split.
  - rewrite <- (normalise_sheet_name_upper name1), <- (normalise_sheet_name_upper name2).
    now rewrite <- (upper_lower name1), <- (upper_lower name2), E.
  - intros N m1 m2 c1 c2. rewrite group_by_floor_grouped, map_fst_grouped.
    simpl. unfold floor_of. simpl.
    destruct (String.eqb_spec name2 name1); [congruence | reflexivity].
Qed.

Lemma sheet_names_ignore_case_witness :
  normalise_sheet_name "lobby" = normalise_sheet_name "LOBBY".
Proof. apply (sheet_names_ignore_case "lobby" "LOBBY"); reflexivity. Defined.

(** ** Rows of raw records *)

Lemma coord_note_raw_typed (ap : RawRecord) (m f : option string) :
  coord_note_raw ap = coord_note (mkAP m f (lookup "coordinate_xyz" ap)).
Proof.
  unfold coord_note_raw, coord_note, raw_get. simpl.
  destruct (lookup "coordinate_xyz" ap); reflexivity.
Qed.

(** On a record whose model and floor name are absent or text, row
    building is that of the typed record. *)
Lemma build_row_raw_typed (c : Z) (ap : RawRecord) (t : AccessPoint) :
  typed ap = Some t -> build_row_raw c ap = build_row c t.
Proof.
  unfold typed, build_row_raw, build_row, raw_get. intros H.
  destruct (lookup "model" ap) as [[]|] eqn:M; simpl in H; try discriminate;
    destruct (text_field (lookup "floorplan_name" ap)) as [f|]; try discriminate;
    injection H as <-; simpl;
    match goal with
    | |- context [coord_note (mkAP ?m ?f' _)] => rewrite (coord_note_raw_typed ap m f')
    end; reflexivity.
Qed.

(** A model that is present and not a string stops row building at the
    model step, before the note is looked at. *)
Lemma build_row_raw_bad_model (c : Z) (ap : RawRecord) :
  (forall s, raw_get ap "model" (JString "") <> JString s) ->
  build_row_raw c ap = Err AttributeError.
Proof.
  unfold build_row_raw. intros H.
  destruct (raw_get ap "model" (JString "")) as [| | | |s| |]; try reflexivity.
  now destruct (H s).
Qed.

(** A record whose model is null: the row is not built although the
    coordinates are null. *)
Lemma null_model_row_fails :
  build_row_raw 1 [("model", JNull); ("coordinate_xyz", JNull)] = Err AttributeError.
Proof. reflexivity. Qed.

(** C10 (amended). With coordinates that are null or an empty object the
    note is empty, and the row is built when the model is absent or a
    string (a model of another type raises AttributeError at the model
    step).  The note fails exactly when the coordinates are a truthy
    value that is not an object, or a non-empty object whose x or y is
    missing or is not a float, a boolean or an integer in the range of
    floats. *)
Theorem note_failures_raw (c : Z) (ap : RawRecord) :
  (lookup "coordinate_xyz" ap = Some JNull \/
   lookup "coordinate_xyz" ap = Some (JObject []) ->
   coord_note_raw ap = Ok "" /\
   (lookup "model" ap = None ->
      build_row_raw c ap = Ok (row_of c "" "")) /\
   (forall s, lookup "model" ap = Some (JString s) ->
      build_row_raw c ap = Ok (row_of c (normalise_model s) "")) /\
   (forall v, lookup "model" ap = Some v -> (forall s, v <> JString s) ->
      build_row_raw c ap = Err AttributeError) /\
   (forall m, column "Notes" (row_of c m "") = Some "")) /\
  ((exists e, coord_note_raw ap = Err e) <->
   exists v, lookup "coordinate_xyz" ap = Some v /\ truthy v = true /\
     (is_object v = false \/
      exists d, v = JObject d /\ d <> [] /\
                (formattable (get_or_none "x" d) = false \/
                 formattable (get_or_none "y" d) = false))) /\
  (forall v, formattable v = true -> is_number v = true \/ exists b, v = JBool b).
Proof.
  split; [|split; [|exact formattable_number]].
  - intros H.
    assert (N : coord_note_raw ap = Ok "").
    { unfold coord_note_raw, raw_get. destruct H as [-> | ->]; reflexivity. }
    split; [exact N|]. split; [|split; [|split]].
    + intros M. unfold build_row_raw, raw_get. rewrite M, N. reflexivity.
    + intros s M. unfold build_row_raw, raw_get. rewrite M, N. reflexivity.
    + intros v M V. apply build_row_raw_bad_model. unfold raw_get. now rewrite M.
    + reflexivity.
  - rewrite (coord_note_raw_typed ap None None).
    apply (note_failures c (mkAP None None (lookup "coordinate_xyz" ap))).
Qed.
